(** * CloudMapper auditor stack: the public-only VPC construction

    A shallow embedding of [auditor/lib/cloudmapperauditor-stack.js]: the
    configuration check, the creation of the always-false condition, the loop
    that attaches it to the default routes of the private subnets, and the
    places where configuration values flow into IAM statements and
    environments. *)

From Stdlib Require Import ZArith Ascii.
From stdpp Require Import base option list strings gmap fin_maps pretty.

Set Warnings "-register-all".
Open Scope string_scope.
Open Scope list_scope.

(** ** JavaScript values, as [yaml.safeLoad] returns them *)

(** A number that is a safe integer ([Number.isSafeInteger]): an integer of
    magnitude at most 2^53 - 1, which a number holds exactly and prints in
    full. *)
Record SafeInteger : Type := mkSafeInteger {
  safe_value : Z;
  safe_range : (Z.abs safe_value <=? 9007199254740991)%Z = true
}.

(** The value of a field: a scalar or a sequence. Numbers are the safe
    integers; other numbers, timestamps, binary scalars and mappings nested in
    a field are left out. *)
Inductive JsVal : Type :=
  | JUndefined
  | JNull
  | JBool (b : bool)
  | JNum (n : SafeInteger)
  | JStr (s : string)
  | JArr (elems : list JsVal).

(** The loaded document: a mapping with ordinary, unique keys (js-yaml rejects
    a duplicated key), or a document that is no mapping ([undefined] for
    an empty file, a scalar, or a sequence). *)
Inductive Config : Type :=
  | Mapping (fields : gmap string JsVal)
  | NoMapping (v : JsVal).

(** [String(v)], which is also what [s + v] appends to a string [s]: an array
    is the comma-separated join of its elements, where [undefined] and [null]
    elements contribute the empty string. *)
Fixpoint ToString (v : JsVal) : string :=
  match v with
  | JUndefined => "undefined"
  | JNull => "null"
  | JBool true => "true"
  | JBool false => "false"
  | JNum n => pretty (safe_value n)
  | JStr s => s
  | JArr elems =>
      String.concat ","
        (map (fun e => match e with
                       | JUndefined | JNull => ""
                       | _ => ToString e
                       end) elems)
  end.

(** [s + v] for a string [s]. *)
Definition str_plus (s : string) (v : JsVal) : string := s +:+ ToString v.

Definition placeholder : string := "MYCOMPANY-cloudmapper".

(** [v == 'MYCOMPANY-cloudmapper'] (line 36). The text is no numeric literal,
    so that [Number] of it is NaN: undefined, null, numbers and booleans are
    never loosely equal to it; a string is compared as a string; an array is
    first converted to its primitive, which is its [ToString]. *)
Definition eq_placeholder (v : JsVal) : bool :=
  match v with
  | JUndefined | JNull => false
  | JBool _ | JNum _ => false
  | JStr t => String.eqb t placeholder
  | JArr _ => String.eqb (ToString v) placeholder
  end.

(** ** Outcomes of running a piece of the program *)

Inductive Error : Type :=
  | TypeError (msg : string).

Inductive Outcome (St A : Type) : Type :=
  | Return (a : A) (st : St)      (* ran to the end *)
  | Exit (code : Z) (st : St)     (* process.exit(code) *)
  | Throw (e : Error) (st : St).  (* uncaught exception *)
Arguments Return {St A} a st.
Arguments Exit {St A} code st.
Arguments Throw {St A} e st.

Definition M (St A : Type) : Type := St -> Outcome St A.

Definition ret {St A} (a : A) : M St A := fun st => Return a st.

Definition bind {St A B} (m : M St A) (k : A -> M St B) : M St B :=
  fun st =>
    match m st with
    | Return a st' => k a st'
    | Exit c st' => Exit c st'
    | Throw e st' => Throw e st'
    end.

Definition throw {St A} (e : Error) : M St A := fun st => Throw e st.

Notation "'let*' x ':=' m 'in' k" := (bind m (fun x => k))
  (at level 10, x pattern, m at level 100, k at level 200).
Notation "m >>> k" := (bind m (fun _ => k))
  (at level 90, right associativity).

(** [for (var x of xs) body(x)] over an array that the body does not change. *)
Fixpoint for_of {St A} (xs : list A) (body : A -> M St unit) : M St unit :=
  match xs with
  | [] => ret tt
  | x :: rest => body x >>> for_of rest body
  end.

(** [config[key]] for the keys this program reads ([s3_bucket], [iam_role],
    [alarm_sns_arn]), none of which is a property of a primitive wrapper, of
    [Array.prototype] or of [Object.prototype]. *)
Definition get_prop {St} (config : Config) (key : string) : M St JsVal :=
  match config with
  | Mapping fields => ret (default JUndefined (fields !! key))
  | NoMapping JUndefined | NoMapping JNull =>
      throw (TypeError "Cannot read property of undefined or null")
  | NoMapping _ => ret JUndefined
  end.

(** ** The construct tree of the provisioning framework *)

(** Constructs are objects with identity: a location is the address of one, and
    two references are the same object exactly when the locations are equal. *)
Abbreviation loc := nat (only parsing).

(** Condition expressions; an operand is a literal or a reference to a
    provisioning-time parameter. *)
Inductive CfnValue : Type :=
  | Lit (v : JsVal)
  | Ref (parameter : string).

Inductive ConditionExpression : Type :=
  | FnEquals (lhs rhs : CfnValue)
  | FnNot (e : ConditionExpression)
  | FnAnd (e1 e2 : ConditionExpression)
  | FnOr (e1 e2 : ConditionExpression).

(** [cdk.Fn.conditionEquals(lhs, rhs)] *)
Definition conditionEquals (lhs rhs : JsVal) : ConditionExpression :=
  FnEquals (Lit lhs) (Lit rhs).

Inductive SubnetType : Type := PUBLIC | PRIVATE.

Inductive RouteTarget : Type := InternetGateway | NatDevice | NoTarget.

(** What a construct carries besides its place in the tree and its condition
    slot. *)
Inductive Props : Type :=
  | SubnetProps (subnetType : SubnetType) (availabilityZone : nat)
  | RouteProps (destinationCidrBlock : string) (target : RouteTarget)
  | ConditionProps (expression : ConditionExpression)
  | NoProps.

(** [obj.cfnOptions], which the resources have: the condition slot, empty
    when it was never assigned. *)
Record CfnOptions : Type := mkOptions {
  condition : option loc               (* obj.cfnOptions.condition *)
}.

(** A construct. Only a resource has options; on any other construct
    [obj.cfnOptions] is [undefined]. *)
Record Construct : Type := mkConstruct {
  constructor_name : string;           (* obj.constructor.name *)
  node_id : string;                    (* obj.node.id *)
  children : list loc;                 (* obj.node.children *)
  cfnOptions : option CfnOptions;      (* obj.cfnOptions *)
  props : Props
}.

(** The condition a construct is gated by: the one in the slot of its
    options, none when the slot is empty or there are no options. *)
Definition cfnOptions_condition (c : Construct) : option loc :=
  match cfnOptions c with
  | Some options => condition options
  | None => None
  end.

Abbreviation Heap := (list Construct) (only parsing).

(** The process as the constructor sees it: what was printed, and the
    constructs that exist. *)
Record World : Type := mkWorld {
  console : list string;
  heap : Heap
}.

Definition console_log (line : string) : M World unit :=
  fun w => Return tt (mkWorld (console w ++ [line]) (heap w)).

Definition process_exit {A} (code : Z) : M World A :=
  fun w => Exit code w.

(** [new C(...)]: the new construct gets an address no other construct has. *)
Definition new (c : Construct) : M World loc :=
  fun w => Return (length (heap w)) (mkWorld (console w) (heap w ++ [c])).

(** Following a reference; an array slot that holds no construct reads as
    [undefined], whose properties cannot be read. *)
Definition deref (l : loc) : M World Construct :=
  fun w =>
    match heap w !! l with
    | Some c => Return c w
    | None => Throw (TypeError "Cannot read property of undefined") w
    end.

(** The construct [c] once its slot holds [cond]. *)
Definition with_condition (c : Construct) (cond : loc) : Construct :=
  mkConstruct (constructor_name c) (node_id c) (children c)
    (Some (mkOptions (Some cond))) (props c).

(** [c.cfnOptions.condition = cond] for the construct [c] at [l]: a TypeError
    when [c.cfnOptions] is [undefined]. *)
Definition set_cfnOptions_condition (l : loc) (cond : loc) : M World unit :=
  fun w =>
    match heap w !! l with
    | Some c =>
        match cfnOptions c with
        | Some _ =>
            Return tt
              (mkWorld (console w) (<[l := with_condition c cond]> (heap w)))
        | None =>
            Throw (TypeError "Cannot set property 'condition' of undefined") w
        end
    | None => Throw (TypeError "Cannot read property 'cfnOptions' of undefined") w
    end.

(** ** Creation conditions at provisioning time *)

(** Modelled from the spec: the value of an operand of a condition in the
    provisioning service, which is not part of this repository, once the
    parameter values are known. Operands are compared as text; a parameter
    reference stands for the value substituted for it. *)
Definition value_of (params : string -> string) (v : CfnValue) : string :=
  match v with
  | Lit x => ToString x
  | Ref p => params p
  end.

(** Modelled from the spec: the truth value of a condition of the
    provisioning service under a substitution of parameter values. *)
Fixpoint holds (params : string -> string) (e : ConditionExpression) : bool :=
  match e with
  | FnEquals lhs rhs => String.eqb (value_of params lhs) (value_of params rhs)
  | FnNot e1 => negb (holds params e1)
  | FnAnd e1 e2 => holds params e1 && holds params e2
  | FnOr e1 e2 => holds params e1 || holds params e2
  end.

(** Modelled from the spec: a resource is created unless its condition slot
    names a condition that evaluates to false. *)
Definition materialized (params : string -> string) (h : Heap) (c : Construct)
  : bool :=
  match cfnOptions_condition c with
  | None => true
  | Some l =>
      match h !! l with
      | Some cond =>
          match props cond with
          | ConditionProps e => holds params e
          | _ => true
          end
      | None => true
      end
  end.

(** ** The network *)

(** [vpc.publicSubnets] and [vpc.privateSubnets]: arrays of references. *)
Record Vpc : Type := mkVpc {
  publicSubnets : list loc;
  privateSubnets : list loc
}.

(** Modelled from the spec: the class names of the two kinds of subnet of the
    resource-graph library. *)
Definition subnet_class (t : SubnetType) : string :=
  match t with PUBLIC => "PublicSubnet" | PRIVATE => "PrivateSubnet" end.

(** Modelled from the spec: the child resources of a subnet of the
    resource-graph library (aws-ec2), which is not part of this repository: the
    route table, the association of the table to the subnet, and the default
    route; each is a resource with an empty condition slot. *)
Definition CfnRouteTable : Construct :=
  mkConstruct "CfnRouteTable" "RouteTable" [] (Some (mkOptions None)) NoProps.

(** Modelled from the spec: the association of the route table to the subnet,
    a child resource of a subnet of the resource-graph library. *)
Definition CfnSubnetRouteTableAssociation : Construct :=
  mkConstruct "CfnSubnetRouteTableAssociation" "RouteTableAssociation" []
    (Some (mkOptions None)) NoProps.

(** Modelled from the spec: the default route, a child resource of a subnet of
    the resource-graph library; the route-resource type is "CfnRoute". *)
Definition CfnRoute (target : RouteTarget) : Construct :=
  mkConstruct "CfnRoute" "DefaultRoute" [] (Some (mkOptions None))
    (RouteProps "0.0.0.0/0" target).

(** Modelled from the spec: the subnet construct of the resource-graph
    library, with its three children; the subnet itself is no resource. *)
Definition Subnet (t : SubnetType) (az : nat) (table assoc route : loc)
  : Construct :=
  mkConstruct (subnet_class t) (subnet_class t +:+ pretty (S az))
    [table; assoc; route] None (SubnetProps t az).

(** Modelled from the spec: the constructor of a subnet of the resource-graph
    library, which creates the three child resources and then the subnet. *)
Definition new_Subnet (t : SubnetType) (az : nat) (target : RouteTarget)
  : M World loc :=
  let* table := new CfnRouteTable in
  let* assoc := new CfnSubnetRouteTableAssociation in
  let* route := new (CfnRoute target) in
  new (Subnet t az table assoc route).

(** Modelled from the spec: one subnet of type [t] for each of [count]
    availability zones, starting at zone [az]. *)
Fixpoint new_Subnets (t : SubnetType) (target : RouteTarget) (az count : nat)
  : M World (list loc) :=
  match count with
  | O => ret []
  | S k =>
      let* s := new_Subnet t az target in
      let* rest := new_Subnets t target (S az) k in
      ret (s :: rest)
  end.

(** Modelled from the spec: [new ec2.Vpc(scope, id, {maxAzs, natGateways})] of
    the resource-graph library. The network is one public and one private
    subnet per requested availability zone; the public subnet's default route
    goes to the internet gateway, the private subnet's default route is
    instantiated too, towards a NAT device (towards nothing when no NAT
    gateway is requested). *)
Definition new_Vpc (maxAzs natGateways : nat) : M World Vpc :=
  let* pubs := new_Subnets PUBLIC InternetGateway 0 maxAzs in
  let* privs := new_Subnets PRIVATE
                  (if Nat.eqb natGateways 0 then NoTarget else NatDevice)
                  0 maxAzs in
  ret (mkVpc pubs privs).

(** [new cdk.CfnCondition(scope, id, {expression})]; a condition is no
    resource. *)
Definition new_CfnCondition (id : string) (expression : ConditionExpression)
  : M World loc :=
  new (mkConstruct "CfnCondition" id [] None (ConditionProps expression)).

(** Lines 68-74: for the private subnets, put the condition on the routes. *)
Definition suppress_child (exclude_condition : loc) (child : loc) : M World unit :=
  let* c := deref child in
  if String.eqb (constructor_name c) "CfnRoute"
  then set_cfnOptions_condition child exclude_condition
  else ret tt.

Definition suppress_subnet (exclude_condition : loc) (subnet : loc) : M World unit :=
  let* s := deref subnet in
  for_of (children s) (suppress_child exclude_condition).

Definition suppress_routes (vpc : Vpc) (exclude_condition : loc) : M World unit :=
  for_of (privateSubnets vpc) (suppress_subnet exclude_condition).

(** Lines 51-74: the network of [maxAzs] zones without NAT gateway, the
    condition that always fails, and the loop; the constructor asks for two
    zones. *)
Definition public_only_vpc (maxAzs : nat) : M World (Vpc * loc) :=
  let* vpc := new_Vpc maxAzs 0 in
  let* exclude_condition :=
    new_CfnCondition "exclude-default-route-subnet"
      (conditionEquals (JBool true) (JBool false)) in
  suppress_routes vpc exclude_condition >>>
  ret (vpc, exclude_condition).

(** *** The loop of lines 68-74, one iteration step at a time *)

(** The two iterators and the world: the subnets still to visit, and the
    children of the current subnet still to visit. *)
Record LoopState : Type := mkLoop {
  outer : list loc;
  inner : list loc;
  world : World
}.

Inductive Step : Type :=
  | Next (st : LoopState)
  | Halt (o : Outcome World unit).

Definition loop_step (exclude_condition : loc) (st : LoopState) : Step :=
  match inner st with
  | child :: cs =>
      match suppress_child exclude_condition child (world st) with
      | Return _ w' => Next (mkLoop (outer st) cs w')
      | Exit code w' => Halt (Exit code w')
      | Throw e w' => Halt (Throw e w')
      end
  | [] =>
      match outer st with
      | subnet :: rest =>
          match deref subnet (world st) with
          | Return s w' => Next (mkLoop rest (children s) w')
          | Exit code w' => Halt (Exit code w')
          | Throw e w' => Halt (Throw e w')
          end
      | [] => Halt (Return tt (world st))
      end
  end.

Fixpoint loop_run (exclude_condition : loc) (fuel : nat) (st : LoopState)
  : option (Outcome World unit) :=
  match loop_step exclude_condition st with
  | Halt o => Some o
  | Next st' =>
      match fuel with
      | O => None
      | S k => loop_run exclude_condition k st'
      end
  end.

(** [l.node.children], empty where [l] holds no construct. *)
Definition children_of (h : Heap) (l : loc) : list loc :=
  match h !! l with
  | Some s => children s
  | None => []
  end.

(** One step for each subnet and one for each of its children. *)
Definition loop_fuel (h : Heap) (subnets : list loc) : nat :=
  fold_right (fun subnet n => S (length (children_of h subnet) + n)) 0 subnets.

(** ** The task, its role and the alarm forwarder *)

Record PolicyStatement : Type := mkPolicyStatement {
  resources : list JsVal;
  actions : list string;
  conditions : list (string * (string * string))
}.

Record ContainerDefinition : Type := mkContainer {
  container_id : string;
  image : string;
  memoryLimitMiB : Z;
  cpu : Z;
  environment : list (string * JsVal)
}.

Record FargateTaskDefinition : Type := mkTaskDefinition {
  containers : list ContainerDefinition;
  taskRolePolicy : list PolicyStatement
}.

Definition addContainer (td : FargateTaskDefinition) (c : ContainerDefinition) :=
  mkTaskDefinition (containers td ++ [c]) (taskRolePolicy td).

Definition addToTaskRolePolicy (td : FargateTaskDefinition) (s : PolicyStatement) :=
  mkTaskDefinition (containers td) (taskRolePolicy td ++ [s]).

Record LambdaFunction : Type := mkFunction {
  handler : string;
  memorySize : Z;
  timeout_seconds : Z;
  fn_environment : list (string * JsVal);
  rolePolicy : list PolicyStatement
}.

Definition addToRolePolicy (f : LambdaFunction) (s : PolicyStatement) :=
  mkFunction (handler f) (memorySize f) (timeout_seconds f) (fn_environment f)
    (rolePolicy f ++ [s]).

(** What the constructor leaves behind. The cluster, the event rules, the
    alarm and the SNS topic take no value from the configuration and are left
    out. *)
Record Stack : Type := mkStack {
  vpc : Vpc;
  exclude_condition : loc;
  taskDefinition : FargateTaskDefinition;
  alarm_forwarder : LambdaFunction
}.

Definition configure_message : string :=
  "You must configure the CDK app by editing ./s3_bucket_files/cdk_app.yaml".

(** The constructor of [CloudmapperauditorStack] from line 36 on: [super] has
    returned, and [config] is the value that [yaml.safeLoad] returned at
    line 34. *)
Definition CloudmapperauditorStack (config : Config) : M World Stack :=
  let* s3_bucket := get_prop config "s3_bucket" in
  (if eq_placeholder s3_bucket
   then console_log configure_message >>> process_exit 1
   else ret tt) >>>
  let* network := public_only_vpc 2 in
  let vpc := fst network in
  let exclude_condition := snd network in
  let taskDefinition := mkTaskDefinition [] [] in
  let* s3_bucket := get_prop config "s3_bucket" in
  let taskDefinition :=
    addContainer taskDefinition
      (mkContainer "cloudmapper-container" "./resources" 512 256
         [("S3_BUCKET", s3_bucket)]) in
  let* iam_role := get_prop config "iam_role" in
  let taskDefinition :=
    addToTaskRolePolicy taskDefinition
      (mkPolicyStatement [JStr (str_plus "arn:aws:iam::*:role/" iam_role)]
         ["sts:AssumeRole"] []) in
  let* s3_bucket := get_prop config "s3_bucket" in
  let taskDefinition :=
    addToTaskRolePolicy taskDefinition
      (mkPolicyStatement [JStr (str_plus "arn:aws:s3:::" s3_bucket)]
         ["s3:ListBucket"] []) in
  let* s3_bucket := get_prop config "s3_bucket" in
  let taskDefinition :=
    addToTaskRolePolicy taskDefinition
      (mkPolicyStatement [JStr (str_plus "arn:aws:s3:::" s3_bucket +:+ "/*")]
         ["s3:GetObject"; "s3:PutObject"; "s3:DeleteObject"] []) in
  let taskDefinition :=
    addToTaskRolePolicy taskDefinition
      (mkPolicyStatement [JStr "*"] ["logs:*"] []) in
  let taskDefinition :=
    addToTaskRolePolicy taskDefinition
      (mkPolicyStatement [JStr "*"] ["cloudwatch:PutMetricData"] []) in
  let taskDefinition :=
    addToTaskRolePolicy taskDefinition
      (mkPolicyStatement [JStr "*"] ["secretsmanager:GetSecretValue"]
         [("ForAnyValue:StringLike",
           ("secretsmanager:SecretId", "*cloudmapper-slack-webhook*"))]) in
  let* alarm_sns_arn := get_prop config "alarm_sns_arn" in
  let alarm_forwarder :=
    mkFunction "main.handler" 128 30 [("ALARM_SNS", alarm_sns_arn)] [] in
  let* alarm_sns_arn := get_prop config "alarm_sns_arn" in
  let alarm_forwarder :=
    addToRolePolicy alarm_forwarder
      (mkPolicyStatement [alarm_sns_arn] ["sns:Publish"] []) in
  ret (mkStack vpc exclude_condition taskDefinition alarm_forwarder).

(** ** Vocabulary of the statements *)

(** The test of line 70 on the construct at [l]. *)
Definition is_route (h : Heap) (l : loc) : bool :=
  match h !! l with
  | Some c => String.eqb (constructor_name c) "CfnRoute"
  | None => false
  end.

(** The children of a subnet that pass the test, and those of a list of
    subnets. *)
Definition routes_of (h : Heap) (subnet : loc) : list loc :=
  match h !! subnet with
  | Some s => List.filter (is_route h) (children s)
  | None => []
  end.

Definition routes_of_all (h : Heap) (subnets : list loc) : list loc :=
  flat_map (routes_of h) subnets.

(** The reference [child] holds a construct on which line 71 cannot fail: one
    that has options when its class name is "CfnRoute". *)
Definition child_ok (h : Heap) (child : loc) : Prop :=
  match h !! child with
  | Some c =>
      if String.eqb (constructor_name c) "CfnRoute"
      then is_Some (cfnOptions c)
      else True
  | None => False
  end.

(** The reference [subnet] holds a construct, and so does each of its
    children, the routes among them with their options. *)
Definition resolves (h : Heap) (subnet : loc) : Prop :=
  match h !! subnet with
  | Some s => Forall (child_ok h) (children s)
  | None => False
  end.

(** [h'] is [h] with the condition put on the constructs at [T], and nothing
    else changed. *)
Definition attached (excl : loc) (T : list loc) (h h' : Heap) : Prop :=
  forall l,
    h' !! l =
    (fun c => if bool_decide (l ∈ T) then with_condition c excl else c) <$> h !! l.

(** The four constructs of one subnet, the first of them at address [base]. *)
Definition subnet_block (t : SubnetType) (target : RouteTarget) (az base : nat) : list Construct :=
  [CfnRouteTable; CfnSubnetRouteTableAssociation; CfnRoute target;
   Subnet t az base (base + 1) (base + 2)].

Fixpoint subnets_block (t : SubnetType) (target : RouteTarget) (az count base : nat) : list Construct :=
  match count with
  | O => []
  | S k => subnet_block t target az base ++ subnets_block t target (S az) k (base + 4)
  end.

Fixpoint subnet_locs (count base : nat) : list nat :=
  match count with
  | O => []
  | S k => (base + 3) :: subnet_locs k (base + 4)
  end.

(** The constructs of subnet number [i] of a block sit where the layout says. *)
Definition subnet_at (h : Heap) (t : SubnetType) (target : RouteTarget) (az base : nat) : Prop :=
  h !! base = Some CfnRouteTable
  /\ h !! (base + 1) = Some CfnSubnetRouteTableAssociation
  /\ h !! (base + 2) = Some (CfnRoute target)
  /\ h !! (base + 3) = Some (Subnet t az base (base + 1) (base + 2)).

Fixpoint route_locs (count base : nat) : list nat :=
  match count with
  | O => []
  | S k => (base + 2) :: route_locs k (base + 4)
  end.

(** The condition of lines 58-64, as a construct. *)
Definition exclude_construct : Construct :=
  mkConstruct "CfnCondition" "exclude-default-route-subnet" [] None
    (ConditionProps (conditionEquals (JBool true) (JBool false))).

(** The heap when the loop of line 68 starts. *)
Definition fresh_network (maxAzs : nat) (h : Heap) : list Construct :=
  h ++ subnets_block PUBLIC InternetGateway 0 maxAzs (length h)
    ++ subnets_block PRIVATE NoTarget 0 maxAzs (length h + 4 * maxAzs)
    ++ [exclude_construct].

(** The construct tree gives every child to one subnet: no child of a subnet
    of [pubs] is a child of a subnet of [privs]. *)
Definition owned_apart (h : Heap) (pubs privs : list loc) : Prop :=
  Forall (fun p =>
    Forall (fun q =>
      Forall (fun l => l ∉ children_of h q) (children_of h p)) privs) pubs.

(** The number of subnet constructs of a heap. *)
Definition is_subnet (c : Construct) : bool :=
  match props c with
  | SubnetProps _ _ => true
  | _ => false
  end.

Definition subnet_count (h : Heap) : nat := length (List.filter is_subnet h).

(** *** Worlds to try the statements on *)

(** The constructor started in an empty world: the world in which the loop
    of line 68 starts, the network and the condition it runs on, and the
    world it leaves. *)
Definition world_before_loop : World := mkWorld [] (fresh_network 2 []).

Definition vpc_before_loop : Vpc := mkVpc [3; 7] [11; 15].

Definition world_after_loop : World :=
  match suppress_routes vpc_before_loop 16 world_before_loop with
  | Return _ w => w
  | _ => world_before_loop
  end.

(** A private subnet as a later version of the library could build it: a
    route table and its association, but no route. *)
Definition routeless_world : World :=
  mkWorld []
    [CfnRouteTable; CfnSubnetRouteTableAssociation;
     mkConstruct "PrivateSubnet" "PrivateSubnet1" [0; 1] None
       (SubnetProps PRIVATE 0)].

Definition routeless_vpc : Vpc := mkVpc [] [2].

(** *** Vocabulary of the statements about the configuration *)




(** *** Vocabulary of the statements about a loop that throws *)

(** The inner loop over [cs] stops at the first child on which line 70 or
    line 71 fails; [visited] are the children before that one. *)
Definition stops_after (h : Heap) (cs visited : list loc) : Prop :=
  exists bad rest,
    cs = visited ++ bad :: rest
    /\ Forall (child_ok h) visited
    /\ ~ child_ok h bad.

(** Where the loop stops in the subnet at [subnet]: at once when the
    reference holds no construct, otherwise in the subnet's children. *)
Definition stopped_in (h : Heap) (subnet : loc) (visited : list loc) : Prop :=
  match h !! subnet with
  | Some s => stops_after h (children s) visited
  | None => visited = []
  end.

(** A private subnet with a route, then a construct of another class that is
    also named "CfnRoute" and is no resource, then a second route. *)
Definition optionless_world : World :=
  mkWorld []
    [CfnRoute NoTarget;
     mkConstruct "CfnRoute" "Lookalike" [] None NoProps;
     CfnRoute NoTarget;
     mkConstruct "PrivateSubnet" "PrivateSubnet1" [0; 1; 2] None
       (SubnetProps PRIVATE 0)].

Definition optionless_vpc : Vpc := mkVpc [] [3].

(** ** What the loop does to the heap *)

Section Suppressor.

Variable excl : loc.

Implicit Types (h : list Construct) (l : nat) (c : Construct) (T : list nat).

#[local] Abbreviation attached := (attached excl).

Lemma attached_nil h : attached [] h h.
Proof.
  intros l. by destruct (h !! l).
Qed.

Lemma attached_app T1 T2 h h1 h2 :
  attached T1 h h1 -> attached T2 h1 h2 -> attached (T1 ++ T2) h h2.
Proof.
  intros H1 H2 l. rewrite H2, H1.
  destruct (h !! l) as [c|]; [|done].
  cbn [fmap option_fmap option_map]. f_equal.
  assert (Happ : l ∈ T1 ++ T2 <-> l ∈ T1 \/ l ∈ T2) by apply elem_of_app.
  repeat case_bool_decide; try done; tauto.
Qed.

Lemma attached_is_Some T h h' l :
  attached T h h' -> is_Some (h' !! l) <-> is_Some (h !! l).
Proof. intros H. rewrite H. apply fmap_is_Some. Qed.

Lemma attached_length T h h' : attached T h h' -> length h' = length h.
Proof.
  intros H.
  destruct (Nat.lt_trichotomy (length h') (length h)) as [Hlt|[Heq|Hgt]];
    [exfalso | done | exfalso].
  - apply lookup_lt_is_Some in Hlt.
    apply (attached_is_Some T h h') in Hlt; [|done].
    apply lookup_lt_is_Some in Hlt. lia.
  - apply lookup_lt_is_Some in Hgt.
    apply (attached_is_Some T h h') in Hgt; [|done].
    apply lookup_lt_is_Some in Hgt. lia.
Qed.

Lemma attached_is_route T h h' l :
  attached T h h' -> is_route h' l = is_route h l.
Proof.
  intros H. unfold is_route. rewrite H.
  destruct (h !! l) as [c|]; simpl; [|done]. by case_bool_decide.
Qed.

Lemma attached_routes_of T h h' subnet :
  attached T h h' -> routes_of h' subnet = routes_of h subnet.
Proof.
  intros H. unfold routes_of. rewrite (H subnet).
  destruct (h !! subnet) as [s|]; simpl; [|done].
  replace (children (if bool_decide (subnet ∈ T) then with_condition s excl else s))
    with (children s) by (by case_bool_decide).
  apply List.filter_ext. intros l. by apply (attached_is_route T).
Qed.

Lemma attached_child_ok T h h' l :
  attached T h h' -> child_ok h l -> child_ok h' l.
Proof.
  intros H. unfold child_ok. rewrite (H l).
  destruct (h !! l) as [c|]; [|done]. cbn [fmap option_fmap option_map].
  case_bool_decide; [|done]. cbn [with_condition constructor_name cfnOptions].
  destruct (String.eqb (constructor_name c) "CfnRoute"); [by eexists | done].
Qed.

Lemma attached_child_ok_inv T h h' l :
  attached T h h' -> (forall x, x ∈ T -> child_ok h x) ->
  child_ok h' l -> child_ok h l.
Proof.
  intros H HT. destruct (decide (l ∈ T)) as [Hin|Hout]; [by auto|].
  unfold child_ok. rewrite (H l).
  destruct (h !! l) as [c|]; [|done]. cbn [fmap option_fmap option_map].
  by rewrite bool_decide_eq_false_2.
Qed.

Lemma attached_resolves T h h' subnet :
  attached T h h' -> resolves h subnet -> resolves h' subnet.
Proof.
  intros H. unfold resolves. rewrite (H subnet).
  destruct (h !! subnet) as [s|]; simpl; [|done].
  replace (children (if bool_decide (subnet ∈ T) then with_condition s excl else s))
    with (children s) by (by case_bool_decide).
  intros HF. eapply Forall_impl; [exact HF|].
  intros l. by apply (attached_child_ok T).
Qed.

(** *** Running the loop *)

Lemma child_ok_dec h child : child_ok h child \/ ~ child_ok h child.
Proof.
  unfold child_ok. destruct (h !! child) as [c|]; [|right; tauto].
  destruct (String.eqb (constructor_name c) "CfnRoute"); [|by left].
  destruct (cfnOptions c); [left; by eexists | right].
  intros [options Hoptions]. discriminate.
Qed.

Lemma child_ok_lookup h child :
  child_ok h child -> exists c, h !! child = Some c.
Proof. unfold child_ok. destruct (h !! child); [by eexists | done]. Qed.

Lemma suppress_child_run cons h child :
  child_ok h child ->
  exists h',
    suppress_child excl child (mkWorld cons h) = Return tt (mkWorld cons h')
    /\ attached (if is_route h child then [child] else []) h h'.
Proof.
  unfold child_ok. intros Hok.
  destruct (h !! child) as [c|] eqn:Hc; [|done].
  unfold suppress_child, bind, deref, is_route. simpl. rewrite Hc.
  destruct (String.eqb (constructor_name c) "CfnRoute").
  - unfold set_cfnOptions_condition. simpl. rewrite Hc.
    destruct Hok as [options ->].
    eexists. split; [reflexivity|].
    intros l. cbn [heap console]. rewrite list_lookup_insert.
    assert (Hlt : child < length h) by (apply lookup_lt_is_Some; eauto).
    destruct (decide (child = l)) as [->|Hne].
    + rewrite decide_True by done. rewrite Hc. simpl.
      rewrite bool_decide_eq_true_2; [done | apply list_elem_of_singleton; done].
    + rewrite decide_False by tauto.
      destruct (h !! l) as [c0|]; [|done]. simpl.
      rewrite bool_decide_eq_false_2; [done|].
      rewrite list_elem_of_singleton. congruence.
  - exists h. split; [reflexivity | apply attached_nil].
Qed.

(** The two ways line 70 and line 71 fail on a child: the slot of the array
    holds no construct, or the construct is named "CfnRoute" and has no
    options. The world is left as it was. *)
Lemma suppress_child_undefined cons h child :
  h !! child = None ->
  suppress_child excl child (mkWorld cons h)
  = Throw (TypeError "Cannot read property of undefined") (mkWorld cons h).
Proof.
  intros Hc. unfold suppress_child, bind, deref. cbn [heap]. by rewrite Hc.
Qed.

Lemma suppress_child_no_options cons h child c :
  h !! child = Some c ->
  constructor_name c = "CfnRoute" ->
  cfnOptions c = None ->
  suppress_child excl child (mkWorld cons h)
  = Throw (TypeError "Cannot set property 'condition' of undefined")
      (mkWorld cons h).
Proof.
  intros Hc Hname Hopt. unfold suppress_child, bind, deref. cbn [heap].
  rewrite Hc, Hname. cbn. unfold set_cfnOptions_condition. cbn [heap].
  by rewrite Hc, Hopt.
Qed.

Lemma suppress_child_bad cons h child :
  ~ child_ok h child ->
  exists e, suppress_child excl child (mkWorld cons h) = Throw e (mkWorld cons h).
Proof.
  unfold child_ok. intros Hbad.
  destruct (h !! child) as [c|] eqn:Hc.
  - destruct (String.eqb (constructor_name c) "CfnRoute") eqn:Hname; [|done].
    apply String.eqb_eq in Hname.
    destruct (cfnOptions c) as [options|] eqn:Hopt; [by destruct Hbad; eexists|].
    eexists. by apply (suppress_child_no_options cons h child c).
  - eexists. by apply suppress_child_undefined.
Qed.

Lemma routes_ok h cs :
  Forall (child_ok h) cs ->
  forall x, x ∈ List.filter (is_route h) cs -> child_ok h x.
Proof.
  intros Hall x Hx. apply list_elem_of_In, List.filter_In in Hx as [Hx _].
  rewrite Forall_forall in Hall. by apply Hall, list_elem_of_In.
Qed.

Lemma for_of_children_run cons cs :
  forall h,
    Forall (child_ok h) cs ->
    exists h',
      for_of cs (suppress_child excl) (mkWorld cons h) = Return tt (mkWorld cons h')
      /\ attached (List.filter (is_route h) cs) h h'.
Proof.
  induction cs as [|child rest IH]; intros h Hall.
  - exists h. split; [reflexivity | apply attached_nil].
  - apply Forall_cons in Hall as [Hc Hrest].
    destruct (suppress_child_run cons h child Hc) as (h1 & Hrun1 & Hat1).
    destruct (IH h1) as (h2 & Hrun2 & Hat2).
    { eapply Forall_impl; [exact Hrest|]. intros l Hl.
      by apply (attached_child_ok _ h h1 l Hat1). }
    exists h2. split.
    + simpl. unfold bind at 1. rewrite Hrun1. exact Hrun2.
    + rewrite (List.filter_ext _ (is_route h)) in Hat2
        by (intros l; by eapply attached_is_route).
      simpl. destruct (is_route h child).
      * by apply (attached_app [child] (List.filter (is_route h) rest) h h1 h2).
      * by apply (attached_app [] (List.filter (is_route h) rest) h h1 h2).
Qed.

Lemma suppress_subnet_run cons h subnet :
  resolves h subnet ->
  exists h',
    suppress_subnet excl subnet (mkWorld cons h) = Return tt (mkWorld cons h')
    /\ attached (routes_of h subnet) h h'.
Proof.
  unfold resolves, routes_of, suppress_subnet, bind, deref. simpl.
  destruct (h !! subnet) as [s|]; [|done].
  apply for_of_children_run.
Qed.

Lemma suppress_subnets_run cons subnets :
  forall h,
    Forall (resolves h) subnets ->
    exists h',
      for_of subnets (suppress_subnet excl) (mkWorld cons h)
      = Return tt (mkWorld cons h')
      /\ attached (routes_of_all h subnets) h h'.
Proof.
  induction subnets as [|subnet rest IH]; intros h Hall.
  - exists h. split; [reflexivity | apply attached_nil].
  - apply Forall_cons in Hall as [Hs Hrest].
    destruct (suppress_subnet_run cons h subnet Hs) as (h1 & Hrun1 & Hat1).
    destruct (IH h1) as (h2 & Hrun2 & Hat2).
    { eapply Forall_impl; [exact Hrest|]. intros l. by eapply attached_resolves. }
    exists h2. split.
    + simpl. unfold bind at 1. rewrite Hrun1. exact Hrun2.
    + replace (routes_of_all h1 rest) with (routes_of_all h rest) in Hat2.
      * by apply (attached_app _ _ h h1 h2).
      * unfold routes_of_all. apply flat_map_ext. intros l.
        symmetry. by eapply attached_routes_of.
Qed.

Lemma for_of_children_Return cons cs :
  forall h w',
    for_of cs (suppress_child excl) (mkWorld cons h) = Return tt w' ->
    Forall (child_ok h) cs.
Proof.
  induction cs as [|child rest IH]; intros h w' Hrun; [constructor|].
  destruct (child_ok_dec h child) as [Hc|Hbad].
  - destruct (suppress_child_run cons h child Hc) as (h1 & Hrun1 & Hat1).
    simpl in Hrun. unfold bind at 1 in Hrun. rewrite Hrun1 in Hrun.
    apply IH in Hrun. constructor; [done|].
    eapply Forall_impl; [exact Hrun|]. intros l Hl.
    apply (attached_child_ok_inv _ h h1 l Hat1); [|done].
    intros x Hx. destruct (is_route h child); [|by apply not_elem_of_nil in Hx].
    by apply list_elem_of_singleton in Hx as ->.
  - destruct (suppress_child_bad cons h child Hbad) as [e He].
    simpl in Hrun. unfold bind at 1 in Hrun. by rewrite He in Hrun.
Qed.

Lemma resolves_routes_ok h subnet :
  resolves h subnet -> forall x, x ∈ routes_of h subnet -> child_ok h x.
Proof.
  unfold resolves, routes_of. destruct (h !! subnet) as [s|]; [|done].
  apply routes_ok.
Qed.

Lemma suppress_subnets_Return cons subnets :
  forall h w',
    for_of subnets (suppress_subnet excl) (mkWorld cons h) = Return tt w' ->
    Forall (resolves h) subnets.
Proof.
  induction subnets as [|subnet rest IH]; intros h w' Hrun; [constructor|].
  assert (Hres : resolves h subnet).
  { simpl in Hrun. unfold bind at 1 in Hrun.
    unfold resolves. unfold suppress_subnet, bind, deref in Hrun. simpl in Hrun.
    destruct (h !! subnet) as [s|]; [|done].
    destruct (for_of (children s) (suppress_child excl) (mkWorld cons h))
      as [[] w1| |] eqn:Hinner; try done.
    by apply for_of_children_Return in Hinner. }
  destruct (suppress_subnet_run cons h subnet Hres) as (h1 & Hrun1 & Hat1).
  simpl in Hrun. unfold bind at 1 in Hrun. rewrite Hrun1 in Hrun.
  apply IH in Hrun. constructor; [done|].
  eapply Forall_impl; [exact Hrun|]. intros l Hl.
  unfold resolves in *. rewrite (Hat1 l) in Hl.
  destruct (h !! l) as [s|]; [|done]. simpl in Hl.
  replace (children (if bool_decide (l ∈ routes_of h subnet)
                     then with_condition s excl else s))
    with (children s) in Hl by (by case_bool_decide).
  eapply Forall_impl; [exact Hl|]. intros l0 Hl0.
  apply (attached_child_ok_inv _ h h1 l0 Hat1); [|done].
  by apply resolves_routes_ok.
Qed.

(** The loop ends normally exactly on the networks whose references resolve,
    and then its effect is the attachment to the matching children. *)
Lemma suppress_routes_resolves v w :
  Forall (resolves (heap w)) (privateSubnets v) ->
  exists h',
    suppress_routes v excl w = Return tt (mkWorld (console w) h')
    /\ attached (routes_of_all (heap w) (privateSubnets v)) (heap w) h'.
Proof. destruct w as [cons h]. apply suppress_subnets_run. Qed.

Lemma suppress_routes_Return v w w' :
  suppress_routes v excl w = Return tt w' ->
  Forall (resolves (heap w)) (privateSubnets v)
  /\ console w' = console w
  /\ attached (routes_of_all (heap w) (privateSubnets v)) (heap w) (heap w').
Proof.
  intros Hrun.
  assert (Hres : Forall (resolves (heap w)) (privateSubnets v)).
  { destruct w as [cons h]. by apply suppress_subnets_Return in Hrun. }
  destruct (suppress_routes_resolves v w Hres) as (h' & Hrun' & Hat).
  rewrite Hrun' in Hrun. by simplify_eq.
Qed.

Lemma attached_eq T h h1 h2 : attached T h h1 -> attached T h h2 -> h1 = h2.
Proof. intros H1 H2. apply list_eq. intros l. by rewrite H1, H2. Qed.

Lemma attached_again T h h' : attached T h h' -> attached T h' h'.
Proof.
  intros H l. rewrite (H l). destruct (h !! l) as [c|]; [|done]. simpl.
  by case_bool_decide.
Qed.

Lemma attached_out T h h' l : attached T h h' -> l ∉ T -> h' !! l = h !! l.
Proof.
  intros H Hl. rewrite (H l). destruct (h !! l) as [c|]; [|done]. simpl.
  by rewrite bool_decide_eq_false_2.
Qed.

Lemma attached_in T h h' l c :
  attached T h h' -> l ∈ T -> h !! l = Some c ->
  h' !! l = Some (with_condition c excl).
Proof.
  intros H Hl Hc. rewrite (H l), Hc. simpl. by rewrite bool_decide_eq_true_2.
Qed.

Lemma attached_same_attributes T h h' l c :
  attached T h h' -> h !! l = Some c ->
  exists c',
    h' !! l = Some c'
    /\ constructor_name c' = constructor_name c
    /\ node_id c' = node_id c
    /\ children c' = children c
    /\ props c' = props c
    /\ (c' = c \/ c' = with_condition c excl).
Proof.
  intros H Hc. rewrite (H l), Hc. simpl. eexists. split; [done|].
  case_bool_decide; auto 10.
Qed.

Lemma routes_of_elem h subnet l :
  l ∈ routes_of h subnet <->
  exists s, h !! subnet = Some s /\ l ∈ children s /\ is_route h l = true.
Proof.
  unfold routes_of. destruct (h !! subnet) as [s|].
  - rewrite list_elem_of_In, List.filter_In, <- list_elem_of_In. split.
    + intros [? ?]. by exists s.
    + intros (s' & ? & ? & ?). by simplify_eq.
  - split; [by intros ?%not_elem_of_nil | by intros (s' & ? & _)].
Qed.

Lemma routes_of_all_elem h subnets l :
  l ∈ routes_of_all h subnets <->
  exists subnet s,
    subnet ∈ subnets /\ h !! subnet = Some s /\ l ∈ children s
    /\ is_route h l = true.
Proof.
  unfold routes_of_all.
  rewrite list_elem_of_In, List.in_flat_map. split.
  - intros (subnet & Hin & Hl).
    apply list_elem_of_In, routes_of_elem in Hl as (s & ? & ? & ?).
    exists subnet, s. by rewrite list_elem_of_In.
  - intros (subnet & s & Hin & Hs & Hl & Hr).
    exists subnet. split; [by apply list_elem_of_In|].
    apply list_elem_of_In, routes_of_elem. by exists s.
Qed.

Lemma attached_subnet_count T h h' :
  attached T h h' -> subnet_count h' = subnet_count h.
Proof.
  intros H. unfold subnet_count.
  assert (Hprops : props <$> h' = props <$> h).
  { apply list_eq. intros l. rewrite !list_lookup_fmap, (H l).
    destruct (h !! l) as [c|]; [|done]. simpl. by case_bool_decide. }
  clear H. revert h' Hprops.
  induction h as [|c h IH]; intros [|c' h'] Hprops; try done.
  injection Hprops as Hc Hrest. specialize (IH h' Hrest).
  assert (Hsub : is_subnet c' = is_subnet c) by (unfold is_subnet; by rewrite Hc).
  simpl. rewrite Hsub. destruct (is_subnet c); simpl; by rewrite IH.
Qed.

(** *** The loop, step by step *)

Lemma loop_fuel_attached T h h' subnets :
  attached T h h' -> loop_fuel h' subnets = loop_fuel h subnets.
Proof.
  intros H. induction subnets as [|subnet rest IH]; simpl; [done|].
  rewrite IH. unfold children_of. rewrite (H subnet).
  destruct (h !! subnet) as [s|]; simpl; [|done].
  by case_bool_decide.
Qed.

Lemma suppress_child_fuel child w w' subnets :
  suppress_child excl child w = Return tt w' ->
  loop_fuel (heap w') subnets = loop_fuel (heap w) subnets.
Proof.
  destruct w as [cons h]. intros Hrun. cbn [heap].
  destruct (child_ok_dec h child) as [Hc|Hbad].
  - destruct (suppress_child_run cons h child Hc) as (h1 & Hrun1 & Hat1).
    rewrite Hrun1 in Hrun. simplify_eq. cbn [heap].
    by eapply loop_fuel_attached.
  - destruct (suppress_child_bad cons h child Hbad) as [e He].
    by rewrite He in Hrun.
Qed.

Lemma loop_run_for_of out :
  forall inn w fuel,
    loop_fuel (heap w) out + length inn <= fuel ->
    loop_run excl fuel (mkLoop out inn w)
    = Some ((for_of inn (suppress_child excl)
             >>> for_of out (suppress_subnet excl)) w).
Proof.
  induction out as [|subnet rest IHo]; intros inn;
    induction inn as [|child cs IHi]; intros w fuel Hfuel.
  - by destruct fuel.
  - simpl in Hfuel. unfold bind at 1. simpl for_of. unfold bind at 1.
    destruct fuel as [|k]; [lia|]. simpl. unfold loop_step. cbn [inner world outer].
    destruct (suppress_child excl child w) as [[] w1| |] eqn:Hchild; try done.
    rewrite IHi; [done|]. rewrite (suppress_child_fuel child w w1); [simpl; lia|done].
  - simpl in Hfuel. unfold bind at 1. simpl for_of. unfold ret at 1.
    unfold bind at 1. unfold suppress_subnet at 1. unfold bind at 1.
    destruct fuel as [|k]; [lia|]. simpl. unfold loop_step. cbn [inner world outer].
    unfold children_of in Hfuel.
    unfold deref. destruct (heap w !! subnet) as [s|] eqn:Hs; [|done].
    rewrite IHo; [done | lia].
  - simpl in Hfuel. unfold bind at 1. simpl for_of. unfold bind at 1.
    destruct fuel as [|k]; [lia|]. simpl. unfold loop_step. cbn [inner world outer].
    destruct (suppress_child excl child w) as [[] w1| |] eqn:Hchild; try done.
    rewrite IHi; [done|]. rewrite (suppress_child_fuel child w w1); [|done].
    simpl. lia.
Qed.

End Suppressor.

(** ** The layout of a freshly built network *)

Section Network.

Implicit Types (h : list Construct) (t : SubnetType) (target : RouteTarget).

Lemma subnets_block_length t target count :
  forall az base, length (subnets_block t target az count base) = 4 * count.
Proof.
  induction count as [|k IH]; intros az base; simpl; [done|].
  rewrite IH. lia.
Qed.

Lemma subnet_locs_length count : forall base, length (subnet_locs count base) = count.
Proof. induction count as [|k IH]; intros base; simpl; [done|]. by rewrite IH. Qed.

Lemma subnet_locs_lookup count :
  forall base i, i < count -> subnet_locs count base !! i = Some (base + 4 * i + 3).
Proof.
  induction count as [|k IH]; intros base i Hi; [lia|].
  destruct i as [|i]; simpl.
  - f_equal. lia.
  - rewrite IH by lia. f_equal. lia.
Qed.

Lemma subnet_locs_elem count base l :
  l ∈ subnet_locs count base <-> exists i, i < count /\ l = base + 4 * i + 3.
Proof.
  rewrite list_elem_of_lookup. split.
  - intros [i Hi]. exists i.
    assert (i < count).
    { apply lookup_lt_Some in Hi. by rewrite subnet_locs_length in Hi. }
    rewrite subnet_locs_lookup in Hi by done. split; congruence.
  - intros (i & Hi & ->). exists i. by apply subnet_locs_lookup.
Qed.

Lemma new_Subnet_run t az target cons h :
  new_Subnet t az target (mkWorld cons h)
  = Return (length h + 3)
      (mkWorld cons (h ++ subnet_block t target az (length h))).
Proof.
  unfold new_Subnet, bind, new, subnet_block. simpl.
  rewrite !length_app. simpl.
  replace (length h + 1 + 1) with (length h + 2) by lia.
  replace (length h + 2 + 1) with (length h + 3) by lia.
  rewrite <- !app_assoc. reflexivity.
Qed.

Lemma new_Subnets_run t target count :
  forall az cons h,
    new_Subnets t target az count (mkWorld cons h)
    = Return (subnet_locs count (length h))
        (mkWorld cons (h ++ subnets_block t target az count (length h))).
Proof.
  induction count as [|k IH]; intros az cons h; simpl.
  - unfold ret. by rewrite app_nil_r.
  - unfold bind at 1. rewrite new_Subnet_run.
    unfold bind at 1. rewrite IH. unfold ret.
    rewrite length_app. simpl. by rewrite <- app_assoc.
Qed.

Lemma subnets_block_at t target count :
  forall az h rest i,
    i < count ->
    subnet_at (h ++ subnets_block t target az count (length h) ++ rest)
      t target (az + i) (length h + 4 * i).
Proof.
  induction count as [|k IH]; intros az h rest i Hi; [lia|].
  destruct i as [|i].
  - rewrite Nat.add_0_r, Nat.mul_0_r, Nat.add_0_r. simpl.
    unfold subnet_at.
    rewrite !lookup_app_r by lia.
    replace (length h - length h) with 0 by lia.
    replace (length h + 1 - length h) with 1 by lia.
    replace (length h + 2 - length h) with 2 by lia.
    replace (length h + 3 - length h) with 3 by lia.
    done.
  - change (subnets_block t target az (S k) (length h))
      with (subnet_block t target az (length h)
            ++ subnets_block t target (S az) k (length h + 4)).
    specialize (IH (S az) (h ++ subnet_block t target az (length h)) rest i).
    rewrite length_app in IH. simpl length in IH.
    rewrite <- !app_assoc in IH. rewrite <- !app_assoc.
    replace (az + S i) with (S az + i) by lia.
    replace (length h + 4 * S i) with (length h + 4 + 4 * i) by lia.
    apply IH. lia.
Qed.

Lemma route_locs_elem count :
  forall base l,
    l ∈ route_locs count base <-> exists i, i < count /\ l = base + 4 * i + 2.
Proof.
  induction count as [|k IH]; intros base l; simpl.
  - split; [by intros ?%not_elem_of_nil | intros (i & Hi & _); lia].
  - rewrite elem_of_cons, IH. split.
    + intros [->|(i & Hi & ->)]; [exists 0 | exists (S i)]; lia.
    + intros (i & Hi & ->). destruct i as [|i]; [left; lia|].
      right. exists i. lia.
Qed.

Lemma subnet_at_routes h t target az base :
  subnet_at h t target az base ->
  routes_of h (base + 3) = [base + 2] /\ resolves h (base + 3).
Proof.
  intros (Htable & Hassoc & Hroute & Hsubnet).
  unfold routes_of, resolves, is_route. rewrite Hsubnet. simpl.
  rewrite Htable, Hassoc, Hroute. simpl. split; [done|].
  repeat (apply Forall_cons; split); [| | |by constructor]; unfold child_ok.
  - by rewrite Htable.
  - by rewrite Hassoc.
  - rewrite Hroute. by eexists.
Qed.

Lemma subnets_at_routes h t target count :
  forall base,
    (forall i, i < count -> exists az, subnet_at h t target az (base + 4 * i)) ->
    routes_of_all h (subnet_locs count base) = route_locs count base
    /\ Forall (resolves h) (subnet_locs count base).
Proof.
  induction count as [|k IH]; intros base Hat; simpl; [done|].
  destruct (Hat 0) as [az Haz]; [lia|].
  rewrite Nat.mul_0_r, Nat.add_0_r in Haz.
  apply subnet_at_routes in Haz as [Hroutes Hres].
  destruct (IH (base + 4)) as [IHroutes IHres].
  { intros i Hi. destruct (Hat (S i)) as [az' Haz']; [lia|].
    exists az'. by replace (base + 4 + 4 * i) with (base + 4 * S i) by lia. }
  split.
  - unfold routes_of_all in *. by rewrite Hroutes, IHroutes.
  - by constructor.
Qed.

Lemma fresh_network_public n h i :
  i < n ->
  subnet_at (fresh_network n h) PUBLIC InternetGateway i (length h + 4 * i).
Proof. intros Hi. by apply (subnets_block_at PUBLIC InternetGateway n 0 h). Qed.

Lemma fresh_network_private n h i :
  i < n ->
  subnet_at (fresh_network n h) PRIVATE NoTarget i (length h + 4 * n + 4 * i).
Proof.
  intros Hi. unfold fresh_network. rewrite app_assoc.
  pose proof (subnets_block_at PRIVATE NoTarget n 0
    (h ++ subnets_block PUBLIC InternetGateway 0 n (length h))
    [exclude_construct] i Hi) as Hat.
  by rewrite length_app, subnets_block_length in Hat.
Qed.

Lemma fresh_network_condition n h :
  fresh_network n h !! (length h + 8 * n) = Some exclude_construct.
Proof.
  unfold fresh_network. rewrite !app_assoc.
  rewrite lookup_app_r; rewrite !length_app, !subnets_block_length; [|lia].
  by replace (length h + 8 * n - (length h + 4 * n + 4 * n)) with 0 by lia.
Qed.

(** Lines 51-74 run to the end, and leave the heap of the fresh network with
    the condition on the default routes of the private subnets. *)
Lemma public_only_vpc_run n cons h :
  exists h',
    public_only_vpc n (mkWorld cons h)
    = Return (mkVpc (subnet_locs n (length h)) (subnet_locs n (length h + 4 * n)),
              length h + 8 * n)
        (mkWorld cons h')
    /\ attached (length h + 8 * n) (route_locs n (length h + 4 * n))
         (fresh_network n h) h'.
Proof.
  destruct (subnets_at_routes (fresh_network n h) PRIVATE NoTarget n
              (length h + 4 * n)) as [Hroutes Hres].
  { intros i Hi. exists i. by apply fresh_network_private. }
  destruct (suppress_subnets_run (length h + 8 * n) cons
              (subnet_locs n (length h + 4 * n)) (fresh_network n h) Hres)
    as (h' & Hrun & Hat).
  exists h'. split; [|by rewrite <- Hroutes].
  unfold public_only_vpc, new_Vpc.
  unfold bind at 1. unfold bind at 1. rewrite new_Subnets_run.
  unfold bind at 1. rewrite new_Subnets_run. unfold ret at 1.
  unfold bind at 1. unfold new_CfnCondition, new. cbn [heap console].
  rewrite !length_app, !subnets_block_length.
  replace (length h + 4 * n + 4 * n) with (length h + 8 * n) by lia.
  unfold bind at 1. unfold suppress_routes. cbn [privateSubnets].
  rewrite <- !app_assoc. fold exclude_construct.
  change (h ++ _) with (fresh_network n h).
  by rewrite Hrun.
Qed.

End Network.

(** ** The loop on an arbitrary network *)

(** C3. The loop changes nothing outside the default routes of the private
    subnets. Whenever it ends normally on a network whose public and private
    subnets own their children apart, nothing is printed, every child of every
    public subnet (its internet-gateway route among them) is the construct it
    was, with the condition slot it had; every construct keeps its class, its
    id, its children and its properties; and a construct that the loop did not
    select is the construct it was. *)
Theorem suppressor_frame (v : Vpc) (excl : loc) (w w' : World) :
  suppress_routes v excl w = Return tt w' ->
  owned_apart (heap w) (publicSubnets v) (privateSubnets v) ->
  console w' = console w
  /\ (forall p l,
        p ∈ publicSubnets v -> l ∈ children_of (heap w) p ->
        heap w' !! l = heap w !! l)
  /\ (forall l c,
        heap w !! l = Some c ->
        exists c',
          heap w' !! l = Some c'
          /\ constructor_name c' = constructor_name c
          /\ node_id c' = node_id c
          /\ children c' = children c
          /\ props c' = props c)
  /\ (forall l,
        l ∉ routes_of_all (heap w) (privateSubnets v) ->
        heap w' !! l = heap w !! l).
Proof.
  intros Hrun Hown.
  apply suppress_routes_Return in Hrun as (_ & Hcons & Hat).
  split; [done|]. split; [|split].
  - intros p l Hp Hl. apply (attached_out _ _ _ _ _ Hat).
    rewrite routes_of_all_elem. intros (q & s & Hq & Hs & Hlq & _).
    unfold owned_apart in Hown.
    rewrite Forall_forall in Hown. specialize (Hown p Hp).
    rewrite Forall_forall in Hown. specialize (Hown q Hq).
    rewrite Forall_forall in Hown. apply (Hown l Hl).
    unfold children_of. by rewrite Hs.
  - intros l c Hc.
    destruct (attached_same_attributes _ _ _ _ l c Hat Hc)
      as (c' & ? & ? & ? & ? & ? & _).
    by exists c'.
  - intros l Hl. by apply (attached_out _ _ _ _ _ Hat).
Qed.

(** C6. The loop is idempotent: run again on the world it left, it ends
    normally and leaves that same world, so no condition is attached a second
    time; it selects the same routes as the first time, and the number of
    subnets and the number of constructs are what they were before the first
    run. *)
Theorem suppressor_idempotent (v : Vpc) (excl : loc) (w w' : World) :
  suppress_routes v excl w = Return tt w' ->
  suppress_routes v excl w' = Return tt w'
  /\ routes_of_all (heap w') (privateSubnets v)
     = routes_of_all (heap w) (privateSubnets v)
  /\ subnet_count (heap w') = subnet_count (heap w)
  /\ length (heap w') = length (heap w).
Proof.
  intros Hrun.
  apply suppress_routes_Return in Hrun as (Hres & Hcons & Hat).
  assert (Hroutes : routes_of_all (heap w') (privateSubnets v)
                    = routes_of_all (heap w) (privateSubnets v)).
  { unfold routes_of_all. apply flat_map_ext. intros q.
    by apply (attached_routes_of excl _ _ _ q Hat). }
  split; [|split; [done | split]].
  2: by apply (attached_subnet_count excl _ _ _ Hat).
  2: by apply (attached_length excl _ _ _ Hat).
  destruct (suppress_routes_resolves excl v w') as (h2 & Hrun2 & Hat2).
  { eapply Forall_impl; [exact Hres|]. intros q.
    by apply (attached_resolves excl _ _ _ q Hat). }
  rewrite Hrun2. rewrite Hroutes in Hat2.
  apply attached_again in Hat.
  rewrite (attached_eq excl _ _ _ _ Hat2 Hat). by destruct w'.
Qed.

(** C7. A child of a private subnet is modified by the loop if and only if
    its class name is exactly "CfnRoute". When it is, the construct the loop
    leaves there has the condition in its slot, and its class, id, children
    and properties are what they were; when it is not (the route table and the
    association of the table among them) the construct is the one that was
    there. So, unless the slot already held that very condition, the child is
    changed exactly when its class name is "CfnRoute". *)
Theorem only_routes_are_touched
  (v : Vpc) (excl : loc) (w w' : World) (subnet child : loc) (s c : Construct) :
  suppress_routes v excl w = Return tt w' ->
  subnet ∈ privateSubnets v ->
  heap w !! subnet = Some s ->
  child ∈ children s ->
  heap w !! child = Some c ->
  exists c',
    heap w' !! child = Some c'
    /\ (constructor_name c = "CfnRoute" ->
        cfnOptions_condition c' = Some excl
        /\ constructor_name c' = constructor_name c
        /\ node_id c' = node_id c
        /\ children c' = children c
        /\ props c' = props c)
    /\ (constructor_name c <> "CfnRoute" -> c' = c)
    /\ (constructor_name c = "CfnRouteTable"
          \/ constructor_name c = "CfnSubnetRouteTableAssociation" ->
        c' = c)
    /\ (cfnOptions_condition c <> Some excl ->
        (c' <> c <-> constructor_name c = "CfnRoute")).
Proof.
  intros Hrun Hq Hs Hchild Hc.
  apply suppress_routes_Return in Hrun as (_ & _ & Hat).
  assert (Hsel : child ∈ routes_of_all (heap w) (privateSubnets v)
                 <-> constructor_name c = "CfnRoute").
  { rewrite routes_of_all_elem. unfold is_route. rewrite Hc. split.
    - intros (_ & _ & _ & _ & _ & Hname). by apply String.eqb_eq.
    - intros Hname. exists subnet, s. by rewrite String.eqb_eq. }
  destruct (decide (constructor_name c = "CfnRoute")) as [Hname|Hname].
  - exists (with_condition c excl).
    split; [apply (attached_in _ _ _ _ _ _ Hat); tauto|].
    split; [done|]. split; [done|]. split; [intros [H|H]; by rewrite H in Hname|].
    intros Hslot. split; [done|]. intros _ Heq. apply Hslot.
    by rewrite <- Heq.
  - exists c.
    split; [rewrite <- Hc; apply (attached_out _ _ _ _ _ Hat); tauto|].
    split; [done|]. split; [done|]. split; [done|].
    intros _. split; [done | by intros ?].
Qed.

(** C8. The loop does not count what it selected. On a network whose
    references resolve it ends normally and prints nothing, whatever it found:
    for a private subnet none of whose children has the class name "CfnRoute",
    every child is left as it was; and when no private subnet has such a child
    the world is left as it was. *)
Theorem no_route_is_silent (v : Vpc) (excl : loc) (w : World) :
  Forall (resolves (heap w)) (privateSubnets v) ->
  exists w',
    suppress_routes v excl w = Return tt w'
    /\ console w' = console w
    /\ (forall subnet child,
          subnet ∈ privateSubnets v ->
          routes_of (heap w) subnet = [] ->
          child ∈ children_of (heap w) subnet ->
          heap w' !! child = heap w !! child)
    /\ (routes_of_all (heap w) (privateSubnets v) = [] -> w' = w).
Proof.
  intros Hres.
  destruct (suppress_routes_resolves excl v w Hres) as (h' & Hrun & Hat).
  exists (mkWorld (console w) h'). split; [done|]. split; [done|]. split.
  - intros subnet child Hq Hnone Hchild. cbn [heap].
    apply (attached_out _ _ _ _ _ Hat).
    rewrite routes_of_all_elem. intros (q & s & _ & _ & _ & Hroute).
    unfold children_of in Hchild.
    destruct (heap w !! subnet) as [s0|] eqn:Hs0;
      [|by apply not_elem_of_nil in Hchild].
    assert (Hin : child ∈ routes_of (heap w) subnet)
      by (apply routes_of_elem; by exists s0).
    rewrite Hnone in Hin. by apply not_elem_of_nil in Hin.
  - intros Hnone. rewrite Hnone in Hat.
    rewrite (attached_eq excl _ _ _ _ Hat (attached_nil excl (heap w))).
    by destruct w.
Qed.



(** ** The network the constructor builds *)

Lemma subnet_locs_NoDup count : forall base, NoDup (subnet_locs count base).
Proof.
  induction count as [|k IH]; intros base; simpl; constructor; [|apply IH].
  rewrite subnet_locs_elem. intros (i & _ & Hi). lia.
Qed.

Lemma subnet_locs_app n m base :
  subnet_locs n base ++ subnet_locs m (base + 4 * n) = subnet_locs (n + m) base.
Proof.
  revert base. induction n as [|k IH]; intros base; simpl.
  - by rewrite Nat.add_0_r.
  - f_equal. rewrite <- IH. do 2 f_equal. lia.
Qed.


Lemma new_Vpc_run n natGateways cons h :
  let target := if Nat.eqb natGateways 0 then NoTarget else NatDevice in
  new_Vpc n natGateways (mkWorld cons h)
  = Return (mkVpc (subnet_locs n (length h)) (subnet_locs n (length h + 4 * n)))
      (mkWorld cons
         (h ++ subnets_block PUBLIC InternetGateway 0 n (length h)
            ++ subnets_block PRIVATE target 0 n (length h + 4 * n))).
Proof.
  intros target. unfold new_Vpc.
  unfold bind at 1. rewrite new_Subnets_run.
  unfold bind at 1. rewrite new_Subnets_run. unfold ret.
  rewrite length_app, subnets_block_length. by rewrite <- app_assoc.
Qed.

(** C5. For every requested number [n >= 1] of availability zones (and any
    number of NAT gateways), the network has exactly [n] public and [n]
    private subnets, all of them different constructs, one public and one
    private subnet for each zone; the public subnet has a default route to
    the internet gateway, and the private subnet has a default route too. *)
Theorem vpc_subnets_per_zone (n natGateways : nat) (cons : list string)
  (h : list Construct) :
  1 <= n ->
  exists vpc h',
    new_Vpc n natGateways (mkWorld cons h) = Return vpc (mkWorld cons h')
    /\ length (publicSubnets vpc) = n
    /\ length (privateSubnets vpc) = n
    /\ NoDup (publicSubnets vpc ++ privateSubnets vpc)
    /\ forall az, az < n ->
         exists p q table_p assoc_p route_p table_q assoc_q route_q target,
           publicSubnets vpc !! az = Some p
           /\ privateSubnets vpc !! az = Some q
           /\ h' !! p = Some (Subnet PUBLIC az table_p assoc_p route_p)
           /\ h' !! route_p = Some (CfnRoute InternetGateway)
           /\ h' !! q = Some (Subnet PRIVATE az table_q assoc_q route_q)
           /\ h' !! route_q = Some (CfnRoute target).
Proof.
  intros _. eexists _, _. split; [apply new_Vpc_run|]. cbn [publicSubnets privateSubnets].
  rewrite !subnet_locs_length. split; [done|]. split; [done|]. split.
  - rewrite subnet_locs_app. apply subnet_locs_NoDup.
  - intros az Haz.
    set (target := if Nat.eqb natGateways 0 then NoTarget else NatDevice).
    pose proof (subnets_block_at PUBLIC InternetGateway n 0 h
      (subnets_block PRIVATE target 0 n (length h + 4 * n)) az Haz)
      as (_ & _ & Hroute_p & Hp).
    pose proof (subnets_block_at PRIVATE target n 0
      (h ++ subnets_block PUBLIC InternetGateway 0 n (length h)) [] az Haz)
      as (_ & _ & Hroute_q & Hq).
    rewrite length_app, subnets_block_length, app_nil_r, <- app_assoc
      in Hroute_q, Hq.
    eexists _, _, _, _, _, _, _, _, target.
    rewrite !subnet_locs_lookup by done.
    split; [done|]. split; [done|]. split; [exact Hp|]. split; [exact Hroute_p|].
    split; [exact Hq | exact Hroute_q].
Qed.

Lemma vpc_subnets_per_zone_witness :
  exists vpc h',
    new_Vpc 2 0 (mkWorld [] []) = Return vpc (mkWorld [] h')
    /\ length (publicSubnets vpc) = 2
    /\ length (privateSubnets vpc) = 2.
Proof.
  destruct (vpc_subnets_per_zone 2 0 [] []) as (vpc & h' & Hrun & Hp & Hq & _).
  - lia.
  - by exists vpc, h'.
Defined.


(** The subnets of the finished network, read off its heap. *)
Lemma finished_private_subnet n h h' i :
  attached (length h + 8 * n) (route_locs n (length h + 4 * n))
    (fresh_network n h) h' ->
  i < n ->
  let b := length h + 4 * n + 4 * i in
  h' !! (b + 3) = Some (Subnet PRIVATE i b (b + 1) (b + 2))
  /\ List.filter (is_route h') [b; b + 1; b + 2] = [b + 2]
  /\ h' !! (b + 2)
     = Some (with_condition (CfnRoute NoTarget) (length h + 8 * n)).
Proof.
  intros Hat Hi b.
  destruct (fresh_network_private n h i Hi) as (Htable & Hassoc & Hroute & Hsub).
  fold b in Htable, Hassoc, Hroute, Hsub.
  split; [|split].
  - rewrite <- Hsub. apply (attached_out _ _ _ _ _ Hat).
    rewrite route_locs_elem. intros (j & _ & Hj). lia.
  - simpl. rewrite !(attached_is_route _ _ _ _ _ Hat).
    unfold is_route. by rewrite Htable, Hassoc, Hroute.
  - apply (attached_in _ _ _ _ _ _ Hat); [|done].
    rewrite route_locs_elem. exists i. lia.
Qed.

Lemma finished_public_subnet n h h' i :
  attached (length h + 8 * n) (route_locs n (length h + 4 * n))
    (fresh_network n h) h' ->
  i < n ->
  let b := length h + 4 * i in
  h' !! (b + 3) = Some (Subnet PUBLIC i b (b + 1) (b + 2))
  /\ h' !! b = Some CfnRouteTable
  /\ h' !! (b + 1) = Some CfnSubnetRouteTableAssociation
  /\ h' !! (b + 2) = Some (CfnRoute InternetGateway).
Proof.
  intros Hat Hi b.
  destruct (fresh_network_public n h i Hi) as (Htable & Hassoc & Hroute & Hsub).
  fold b in Htable, Hassoc, Hroute, Hsub.
  rewrite <- Hsub, <- Htable, <- Hassoc, <- Hroute.
  repeat split; apply (attached_out _ _ _ _ _ Hat);
    rewrite route_locs_elem; intros (j & Hj & Heq); lia.
Qed.

(** In the network the constructor builds, for any number of zones, the
    internet-gateway route of every public subnet has an empty condition
    slot. *)
Lemma public_routes_unconditioned (n : nat) (cons : list string)
  (h : list Construct) :
  exists vpc excl h',
    public_only_vpc n (mkWorld cons h) = Return (vpc, excl) (mkWorld cons h')
    /\ forall p, p ∈ publicSubnets vpc ->
         exists az table assoc route,
           h' !! p = Some (Subnet PUBLIC az table assoc route)
           /\ h' !! route = Some (CfnRoute InternetGateway)
           /\ cfnOptions_condition (CfnRoute InternetGateway) = None.
Proof.
  destruct (public_only_vpc_run n cons h) as (h' & Hrun & Hat).
  eexists _, _, h'. split; [exact Hrun|]. cbn [publicSubnets].
  intros p (i & Hi & ->)%subnet_locs_elem.
  destruct (finished_public_subnet n h h' i Hat Hi) as (Hsub & _ & _ & Hroute).
  by eexists _, _, _, _.
Qed.


(** ** Witnesses of the statements about the loop *)

Lemma suppressor_frame_witness :
  heap world_after_loop !! 6 = Some (CfnRoute InternetGateway).
Proof.
  destruct (suppressor_frame vpc_before_loop 16 world_before_loop
              world_after_loop) as (_ & Hpub & _).
  - reflexivity.
  - unfold owned_apart. compute_done.
  - rewrite (Hpub 7 6); [reflexivity | compute_done | compute_done].
Defined.

Lemma suppressor_idempotent_witness :
  suppress_routes vpc_before_loop 16 world_after_loop
  = Return tt world_after_loop.
Proof.
  apply (suppressor_idempotent vpc_before_loop 16 world_before_loop
           world_after_loop).
  reflexivity.
Defined.

Lemma only_routes_are_touched_witness :
  (exists c',
     heap world_after_loop !! 10 = Some c'
     /\ cfnOptions_condition c' = Some 16)
  /\ heap world_after_loop !! 8 = Some CfnRouteTable.
Proof.
  split.
  - destruct (only_routes_are_touched vpc_before_loop 16 world_before_loop
                world_after_loop 11 10 (Subnet PRIVATE 0 8 9 10)
                (CfnRoute NoTarget))
      as (c' & Hc' & Hroute & _); [reflexivity | compute_done | reflexivity
      | compute_done | reflexivity |].
    exists c'. split; [exact Hc'|]. by apply Hroute.
  - destruct (only_routes_are_touched vpc_before_loop 16 world_before_loop
                world_after_loop 11 8 (Subnet PRIVATE 0 8 9 10)
                CfnRouteTable)
      as (c' & Hc' & _ & _ & Htable & _); [reflexivity | compute_done
      | reflexivity | compute_done | reflexivity |].
    rewrite Hc'. f_equal. apply Htable. by left.
Defined.

Lemma no_route_is_silent_witness :
  exists w',
    suppress_routes routeless_vpc 3 routeless_world = Return tt w'
    /\ w' = routeless_world.
Proof.
  destruct (no_route_is_silent routeless_vpc 3 routeless_world)
    as (w' & Hrun & _ & _ & Hsame).
  - repeat constructor; by eexists.
  - exists w'. split; [exact Hrun|]. by apply Hsame.
Defined.


(** ** The condition at provisioning time *)

(** C2. The condition of lines 58-64, the equality of the literals [true]
    and [false], does not hold under any substitution of parameter values, and
    a resource whose condition slot names a condition with that expression is
    never created. *)
Theorem exclude_condition_never_holds (params : string -> string)
  (h : list Construct) (c cond : Construct) (l : loc) :
  cfnOptions_condition c = Some l ->
  h !! l = Some cond ->
  props cond = ConditionProps (conditionEquals (JBool true) (JBool false)) ->
  holds params (conditionEquals (JBool true) (JBool false)) = false
  /\ materialized params h c = false.
Proof.
  intros Hslot Hcond Hprops. split; [reflexivity|].
  unfold materialized. by rewrite Hslot, Hcond, Hprops.
Qed.

Lemma exclude_condition_never_holds_witness :
  materialized (fun _ => "true") (heap world_after_loop)
    (with_condition (CfnRoute NoTarget) 16) = false.
Proof.
  apply (exclude_condition_never_holds (fun _ => "true")
           (heap world_after_loop) (with_condition (CfnRoute NoTarget) 16)
           exclude_construct 16); reflexivity.
Defined.

(** ** The constructor *)

Lemma eq_placeholder_string (s : string) :
  eq_placeholder (JStr s) = true <-> s = placeholder.
Proof. apply String.eqb_eq. Qed.

(** An empty configuration file loads as [undefined], and the constructor
    fails on reading its first field, before the check. *)
Example empty_file_throws (w : World) :
  CloudmapperauditorStack (NoMapping JUndefined) w
  = Throw (TypeError "Cannot read property of undefined or null") w.
Proof. reflexivity. Qed.

(** A sequence that holds the placeholder is loosely equal to it. *)
Example placeholder_in_sequence :
  eq_placeholder (JArr [JStr placeholder]) = true
  /\ eq_placeholder (JArr [JStr placeholder; JNull]) = false.
Proof. split; reflexivity. Qed.

(** With a configuration that is not the placeholder, the constructor builds
    the network of two zones and returns this stack. *)
Lemma constructor_proceeds (fields : gmap string JsVal) (w : World) :
  let field k := default JUndefined (fields !! k) in
  eq_placeholder (field "s3_bucket") = false ->
  exists vpc excl h',
    public_only_vpc 2 w = Return (vpc, excl) (mkWorld (console w) h')
    /\ CloudmapperauditorStack (Mapping fields) w
       = Return
           (mkStack vpc excl
              (mkTaskDefinition
                 [mkContainer "cloudmapper-container" "./resources" 512 256
                    [("S3_BUCKET", field "s3_bucket")]]
                 [mkPolicyStatement
                    [JStr (str_plus "arn:aws:iam::*:role/" (field "iam_role"))]
                    ["sts:AssumeRole"] [];
                  mkPolicyStatement
                    [JStr (str_plus "arn:aws:s3:::" (field "s3_bucket"))]
                    ["s3:ListBucket"] [];
                  mkPolicyStatement
                    [JStr (str_plus "arn:aws:s3:::" (field "s3_bucket") +:+ "/*")]
                    ["s3:GetObject"; "s3:PutObject"; "s3:DeleteObject"] [];
                  mkPolicyStatement [JStr "*"] ["logs:*"] [];
                  mkPolicyStatement [JStr "*"] ["cloudwatch:PutMetricData"] [];
                  mkPolicyStatement [JStr "*"] ["secretsmanager:GetSecretValue"]
                    [("ForAnyValue:StringLike",
                      ("secretsmanager:SecretId", "*cloudmapper-slack-webhook*"))]])
              (mkFunction "main.handler" 128 30
                 [("ALARM_SNS", field "alarm_sns_arn")]
                 [mkPolicyStatement [field "alarm_sns_arn"] ["sns:Publish"] []]))
           (mkWorld (console w) h').
Proof.
  intros field Hne. destruct w as [cons h].
  destruct (public_only_vpc_run 2 cons h) as (h' & Hrun & _).
  eexists _, _, h'. split; [exact Hrun|].
  unfold CloudmapperauditorStack, get_prop.
  unfold bind at 1. unfold ret at 1. fold (field "s3_bucket"). rewrite Hne.
  unfold bind at 1. unfold ret at 1.
  unfold bind at 1. rewrite Hrun. reflexivity.
Qed.

(** C4. For a configuration that is a mapping: if its [s3_bucket] field is
    equal (JavaScript [==]) to the placeholder, the constructor prints the
    message and exits with status 1, and no construct has been created; if it
    is not, construction proceeds: the constructor prints nothing, runs lines
    51-74 and returns their network and condition, so that two public and two
    private subnets and the condition exist as new constructs, and the stack
    holds the container with the bucket in its environment, the six
    statements of the task role, and the forwarder with its environment and
    its statement. A field that is a string is equal to the placeholder
    exactly when it is the placeholder. *)
Theorem placeholder_config_halts (fields : gmap string JsVal) (w : World) :
  let s3_bucket := default JUndefined (fields !! "s3_bucket") in
  (eq_placeholder s3_bucket = true ->
   CloudmapperauditorStack (Mapping fields) w
   = Exit 1 (mkWorld (console w ++ [configure_message]) (heap w)))
  /\ (eq_placeholder s3_bucket = false ->
      exists stack w',
        CloudmapperauditorStack (Mapping fields) w = Return stack w'
        /\ console w' = console w
        /\ public_only_vpc 2 w
           = Return (vpc stack, exclude_condition stack) w'
        /\ length (publicSubnets (vpc stack)) = 2
        /\ length (privateSubnets (vpc stack)) = 2
        /\ (forall subnet,
              subnet ∈ publicSubnets (vpc stack) ++ privateSubnets (vpc stack) ->
              length (heap w) <= subnet
              /\ exists t az table assoc route,
                   heap w' !! subnet = Some (Subnet t az table assoc route))
        /\ length (heap w) <= exclude_condition stack
        /\ heap w' !! exclude_condition stack = Some exclude_construct
        /\ containers (taskDefinition stack)
           = [mkContainer "cloudmapper-container" "./resources" 512 256
                [("S3_BUCKET", s3_bucket)]]
        /\ length (taskRolePolicy (taskDefinition stack)) = 6
        /\ fn_environment (alarm_forwarder stack)
           = [("ALARM_SNS", default JUndefined (fields !! "alarm_sns_arn"))]
        /\ length (rolePolicy (alarm_forwarder stack)) = 1)
  /\ (forall s, fields !! "s3_bucket" = Some (JStr s) ->
        (eq_placeholder s3_bucket = true <-> s = placeholder)).
Proof.
  intros s3_bucket. split; [|split].
  - intros Heq. unfold CloudmapperauditorStack, get_prop.
    unfold bind at 1. unfold ret at 1. fold s3_bucket. rewrite Heq.
    reflexivity.
  - intros Hne.
    destruct (constructor_proceeds fields w Hne) as (vp & excl & h' & Hnet & Hrun).
    destruct w as [cons h]. cbn [console heap] in *.
    destruct (public_only_vpc_run 2 cons h) as (h2 & Hnet2 & Hat).
    rewrite Hnet2 in Hnet. injection Hnet as <- <- <-.
    assert (Hsubnets : forall subnet,
              subnet ∈ subnet_locs 2 (length h)
                       ++ subnet_locs 2 (length h + 4 * 2) ->
              length h <= subnet
              /\ exists t az table assoc route,
                   h2 !! subnet = Some (Subnet t az table assoc route)).
    { intros subnet [Hp|Hq]%elem_of_app.
      - apply subnet_locs_elem in Hp as (i & Hi & ->). split; [lia|].
        destruct (finished_public_subnet 2 h h2 i Hat Hi) as (Hsub & _).
        by eexists _, _, _, _, _.
      - apply subnet_locs_elem in Hq as (i & Hi & ->). split; [lia|].
        destruct (finished_private_subnet 2 h h2 i Hat Hi) as (Hsub & _).
        by eexists _, _, _, _, _. }
    assert (Hexcl : h2 !! (length h + 8 * 2) = Some exclude_construct).
    { rewrite <- (fresh_network_condition 2 h).
      apply (attached_out _ _ _ _ _ Hat).
      rewrite route_locs_elem. intros (j & Hj & Heq). lia. }
    eexists _, _. split; [exact Hrun|]. cbn [console heap vpc exclude_condition
      taskDefinition alarm_forwarder containers taskRolePolicy fn_environment
      rolePolicy publicSubnets privateSubnets].
    split; [done|]. split; [done|]. split; [done|]. split; [done|].
    split; [exact Hsubnets|]. split; [lia|]. split; [exact Hexcl|]. done.
  - intros s Hfield. unfold s3_bucket. rewrite Hfield.
    apply eq_placeholder_string.
Qed.

Lemma placeholder_config_halts_witness :
  CloudmapperauditorStack (Mapping {[ "s3_bucket" := JStr placeholder ]})
    (mkWorld [] [])
  = Exit 1 (mkWorld [configure_message] [])
  /\ exists stack w',
       CloudmapperauditorStack (Mapping {[ "s3_bucket" := JStr "my-bucket" ]})
         (mkWorld [] [])
       = Return stack w'
       /\ console w' = []
       /\ length (privateSubnets (vpc stack)) = 2.
Proof.
  split.
  - apply (placeholder_config_halts {[ "s3_bucket" := JStr placeholder ]}
             (mkWorld [] [])).
    reflexivity.
  - destruct (proj1 (proj2 (placeholder_config_halts
                              {[ "s3_bucket" := JStr "my-bucket" ]}
                              (mkWorld [] []))))
      as (stack & w' & Hrun & Hcons & _ & _ & Hprivate & _); [reflexivity|].
    by exists stack, w'.
Defined.

(** C9. Only the [s3_bucket] field is checked. For a configuration that is a
    mapping whose [s3_bucket] field is absent, or present and not equal to the
    placeholder, whatever its [iam_role] and [alarm_sns_arn] fields hold or
    lack, the constructor runs to the end, and the values go unvalidated into
    the stack: the role statement names the text of [iam_role] appended to
    "arn:aws:iam::*:role/" (a string as it is, a missing field as
    "undefined"), and the environment and the statement of the forwarder hold
    the value of [alarm_sns_arn] as it is. *)
Theorem unvalidated_config_embedded (fields : gmap string JsVal) (w : World) :
  let field k := default JUndefined (fields !! k) in
  fields !! "s3_bucket" = None
  \/ eq_placeholder (field "s3_bucket") = false ->
  exists stack w',
    CloudmapperauditorStack (Mapping fields) w = Return stack w'
    /\ console w' = console w
    /\ taskRolePolicy (taskDefinition stack) !! 0
       = Some (mkPolicyStatement
                 [JStr ("arn:aws:iam::*:role/" +:+ ToString (field "iam_role"))]
                 ["sts:AssumeRole"] [])
    /\ (forall role, fields !! "iam_role" = Some (JStr role) ->
          ToString (field "iam_role") = role)
    /\ (fields !! "iam_role" = None ->
          ToString (field "iam_role") = "undefined")
    /\ fn_environment (alarm_forwarder stack)
       = [("ALARM_SNS", field "alarm_sns_arn")]
    /\ rolePolicy (alarm_forwarder stack)
       = [mkPolicyStatement [field "alarm_sns_arn"] ["sns:Publish"] []].
Proof.
  intros field Hcfg.
  assert (Hne : eq_placeholder (field "s3_bucket") = false).
  { destruct Hcfg as [Habsent|Hne]; [|done]. unfold field. by rewrite Habsent. }
  destruct (constructor_proceeds fields w Hne) as (vpc & excl & h' & _ & Hrun).
  eexists _, _. split; [exact Hrun|]. cbn.
  split; [done|]. split; [done|]. split; [|split; [|done]].
  - intros role Hrole. unfold field. by rewrite Hrole.
  - intros Hrole. unfold field. by rewrite Hrole.
Qed.

Lemma unvalidated_config_embedded_witness :
  exists stack w',
    CloudmapperauditorStack (Mapping {[ "iam_role" := JStr "MYCOMPANY-role" ]})
      (mkWorld [] [])
    = Return stack w'
    /\ taskRolePolicy (taskDefinition stack) !! 0
       = Some (mkPolicyStatement [JStr "arn:aws:iam::*:role/MYCOMPANY-role"]
                 ["sts:AssumeRole"] [])
    /\ fn_environment (alarm_forwarder stack) = [("ALARM_SNS", JUndefined)].
Proof.
  destruct (unvalidated_config_embedded
              {[ "iam_role" := JStr "MYCOMPANY-role" ]} (mkWorld [] []))
    as (stack & w' & Hrun & _ & Hrole & _ & _ & Henv & _).
  - left. reflexivity.
  - exists stack, w'. split; [exact Hrun|]. split; [exact Hrole | exact Henv].
Defined.

(** ** Which configurations the check stops *)

Section Placeholder.









End Placeholder.

(** ** The constructor on every kind of document *)

Lemma constructor_halts (fields : gmap string JsVal) (w : World) :
  eq_placeholder (default JUndefined (fields !! "s3_bucket")) = true ->
  CloudmapperauditorStack (Mapping fields) w
  = Exit 1 (mkWorld (console w ++ [configure_message]) (heap w)).
Proof.
  intros Heq. unfold CloudmapperauditorStack, get_prop.
  unfold bind at 1. unfold ret at 1. by rewrite Heq.
Qed.

Lemma constructor_no_mapping (v : JsVal) (w : World) :
  v <> JUndefined -> v <> JNull ->
  CloudmapperauditorStack (NoMapping v) w
  = CloudmapperauditorStack (Mapping ∅) w.
Proof. intros Hu Hn. by destruct v. Qed.

Lemma constructor_Return (config : Config) (w w' : World) (stack : Stack) :
  CloudmapperauditorStack config w = Return stack w' ->
  public_only_vpc 2 w = Return (vpc stack, exclude_condition stack) w'.
Proof.
  assert (Hmap : forall fields,
    CloudmapperauditorStack (Mapping fields) w = Return stack w' ->
    public_only_vpc 2 w = Return (vpc stack, exclude_condition stack) w').
  { intros fields Hrun.
    destruct (eq_placeholder (default JUndefined (fields !! "s3_bucket")))
      eqn:Heq.
    - by rewrite constructor_halts in Hrun.
    - destruct (constructor_proceeds fields w Heq)
        as (v & excl & h' & Hnet & Hrun').
      rewrite Hrun' in Hrun. by simplify_eq. }
  destruct config as [fields|v]; [by apply Hmap|].
  intros Hrun. apply (Hmap ∅).
  rewrite <- Hrun. symmetry. apply constructor_no_mapping; by intros ->.
Qed.

(** X1. A document that is no mapping. When it is [undefined] (an empty
    file) or [null], the constructor throws on reading the first field and
    the world is as it was: nothing printed, nothing built. Any other scalar
    or sequence is treated as a mapping without fields: the constructor runs
    to the end, and the bucket, the role and the alarm topic are all
    [undefined]. *)
Theorem document_without_mapping (v : JsVal) (w : World) :
  (v = JUndefined \/ v = JNull ->
   CloudmapperauditorStack (NoMapping v) w
   = Throw (TypeError "Cannot read property of undefined or null") w)
  /\ (v <> JUndefined -> v <> JNull ->
      CloudmapperauditorStack (NoMapping v) w
      = CloudmapperauditorStack (Mapping ∅) w
      /\ exists stack w',
           CloudmapperauditorStack (NoMapping v) w = Return stack w'
           /\ console w' = console w
           /\ containers (taskDefinition stack)
              = [mkContainer "cloudmapper-container" "./resources" 512 256
                   [("S3_BUCKET", JUndefined)]]
           /\ resources <$> taskRolePolicy (taskDefinition stack)
              = [[JStr "arn:aws:iam::*:role/undefined"];
                 [JStr "arn:aws:s3:::undefined"];
                 [JStr "arn:aws:s3:::undefined/*"];
                 [JStr "*"]; [JStr "*"]; [JStr "*"]]
           /\ fn_environment (alarm_forwarder stack)
              = [("ALARM_SNS", JUndefined)]).
Proof.
  split.
  - by intros [->| ->].
  - intros Hu Hn. split; [by apply constructor_no_mapping|].
    rewrite constructor_no_mapping by done.
    destruct (constructor_proceeds ∅ w) as (vp & excl & h' & _ & Hrun);
      [done|].
    eexists _, _. split; [exact Hrun|]. by cbn.
Qed.

Lemma document_without_mapping_witness :
  CloudmapperauditorStack (NoMapping JNull) (mkWorld [] [])
  = Throw (TypeError "Cannot read property of undefined or null")
      (mkWorld [] [])
  /\ CloudmapperauditorStack (NoMapping (JStr "s3_bucket: x")) (mkWorld [] [])
     = CloudmapperauditorStack (Mapping ∅) (mkWorld [] []).
Proof.
  split.
  - apply (document_without_mapping JNull (mkWorld [] [])). by right.
  - by apply (document_without_mapping (JStr "s3_bucket: x") (mkWorld [] [])).
Defined.


(** X3. The constructor reads three fields only: two mappings that agree on
    [s3_bucket], [iam_role] and [alarm_sns_arn] give the same outcome, the
    same stack and the same world, whatever else they hold. *)
Theorem other_fields_are_ignored (fields1 fields2 : gmap string JsVal)
  (w : World) :
  fields1 !! "s3_bucket" = fields2 !! "s3_bucket" ->
  fields1 !! "iam_role" = fields2 !! "iam_role" ->
  fields1 !! "alarm_sns_arn" = fields2 !! "alarm_sns_arn" ->
  CloudmapperauditorStack (Mapping fields1) w
  = CloudmapperauditorStack (Mapping fields2) w.
Proof.
  intros Hb Hr Ha. unfold CloudmapperauditorStack, get_prop.
  by rewrite Hb, Hr, Ha.
Qed.

Lemma other_fields_are_ignored_witness :
  CloudmapperauditorStack
    (Mapping {[ "s3_bucket" := JStr "b"; "region" := JStr "eu-west-1" ]})
    (mkWorld [] [])
  = CloudmapperauditorStack (Mapping {[ "s3_bucket" := JStr "b" ]})
      (mkWorld [] []).
Proof.
  apply (other_fields_are_ignored
           {[ "s3_bucket" := JStr "b"; "region" := JStr "eu-west-1" ]}
           {[ "s3_bucket" := JStr "b" ]} (mkWorld [] [])); reflexivity.
Defined.

(** X4. The network does not depend on the configuration: whenever the
    constructor runs to the end on two documents from the same world, it
    leaves the same world, the same subnets and the same condition. *)
Theorem network_ignores_configuration (config1 config2 : Config)
  (w w1 w2 : World) (stack1 stack2 : Stack) :
  CloudmapperauditorStack config1 w = Return stack1 w1 ->
  CloudmapperauditorStack config2 w = Return stack2 w2 ->
  w1 = w2
  /\ vpc stack1 = vpc stack2
  /\ exclude_condition stack1 = exclude_condition stack2.
Proof.
  intros H1%constructor_Return H2%constructor_Return.
  rewrite H1 in H2. by simplify_eq.
Qed.

Lemma network_ignores_configuration_witness :
  exists stack1 stack2 w1 w2,
    CloudmapperauditorStack (Mapping {[ "s3_bucket" := JStr "a" ]})
      (mkWorld [] []) = Return stack1 w1
    /\ CloudmapperauditorStack (NoMapping (JNum (mkSafeInteger 7 eq_refl)))
         (mkWorld [] [])
       = Return stack2 w2
    /\ w1 = w2.
Proof.
  eexists _, _, _, _.
  split; [vm_compute; reflexivity|]. split; [vm_compute; reflexivity|].
  eapply (network_ignores_configuration
            (Mapping {[ "s3_bucket" := JStr "a" ]})
            (NoMapping (JNum (mkSafeInteger 7 eq_refl)))
            (mkWorld [] [])); vm_compute; reflexivity.
Defined.

(** X5. The bucket the task is told and the bucket it may use are the same
    one. For a mapping that passes the check, the container's environment
    holds the [s3_bucket] value as it is, the list statement names the text of
    that value behind "arn:aws:s3:::", and the object statement names that
    same ARN followed by "/*"; with a string value the ARN ends in the string,
    and with the field missing the task is granted the bucket "undefined". *)
Theorem bucket_grants_follow_environment (fields : gmap string JsVal)
  (w : World) :
  let bucket := default JUndefined (fields !! "s3_bucket") in
  eq_placeholder bucket = false ->
  exists stack w' arn,
    CloudmapperauditorStack (Mapping fields) w = Return stack w'
    /\ environment <$> containers (taskDefinition stack)
       = [[("S3_BUCKET", bucket)]]
    /\ arn = "arn:aws:s3:::" +:+ ToString bucket
    /\ taskRolePolicy (taskDefinition stack) !! 1
       = Some (mkPolicyStatement [JStr arn] ["s3:ListBucket"] [])
    /\ taskRolePolicy (taskDefinition stack) !! 2
       = Some (mkPolicyStatement [JStr (arn +:+ "/*")]
                 ["s3:GetObject"; "s3:PutObject"; "s3:DeleteObject"] [])
    /\ (forall name, fields !! "s3_bucket" = Some (JStr name) ->
          arn = "arn:aws:s3:::" +:+ name)
    /\ (fields !! "s3_bucket" = None -> arn = "arn:aws:s3:::undefined").
Proof.
  intros bucket Hne.
  destruct (constructor_proceeds fields w Hne) as (vp & excl & h' & _ & Hrun).
  eexists _, _, _. split; [exact Hrun|]. cbn.
  split; [done|]. split; [reflexivity|]. split; [done|]. split; [done|]. split.
  - intros name Hname. unfold bucket. by rewrite Hname.
  - intros Hnone. unfold bucket. by rewrite Hnone.
Qed.

Lemma bucket_grants_follow_environment_witness :
  exists stack w',
    CloudmapperauditorStack (Mapping {[ "s3_bucket" := JStr "audit" ]})
      (mkWorld [] []) = Return stack w'
    /\ taskRolePolicy (taskDefinition stack) !! 2
       = Some (mkPolicyStatement [JStr "arn:aws:s3:::audit/*"]
                 ["s3:GetObject"; "s3:PutObject"; "s3:DeleteObject"] []).
Proof.
  destruct (bucket_grants_follow_environment
              {[ "s3_bucket" := JStr "audit" ]} (mkWorld [] []))
    as (stack & w' & arn & Hrun & _ & Harn & _ & Hobj & _).
  - reflexivity.
  - exists stack, w'. split; [exact Hrun|]. rewrite Hobj, Harn. reflexivity.
Defined.

(** ** The network against what existed before, and at provisioning time *)




(** ** More about the loop on an arbitrary network *)

Section LoopOutcome.

Variable excl : nat.

Implicit Types (h : list Construct) (T : list nat).

Lemma attached_ext T1 T2 h h' :
  (forall l, l ∈ T1 <-> l ∈ T2) -> attached excl T1 h h' -> attached excl T2 h h'.
Proof.
  intros Hiff Hat l. rewrite (Hat l).
  destruct (h !! l) as [c|]; [|done]. simpl. f_equal.
  specialize (Hiff l). repeat case_bool_decide; tauto.
Qed.

Lemma attached_resolves_inv T h h' subnet :
  attached excl T h h' -> (forall x, x ∈ T -> child_ok h x) ->
  resolves h' subnet -> resolves h subnet.
Proof.
  intros H HT. unfold resolves. rewrite (H subnet).
  destruct (h !! subnet) as [s|]; [|done]. cbn [fmap option_fmap option_map].
  replace (children (if bool_decide (subnet ∈ T) then with_condition s excl else s))
    with (children s) by (by case_bool_decide).
  intros HF. eapply Forall_impl; [exact HF|].
  intros l. by apply (attached_child_ok_inv excl T h h').
Qed.

Lemma stops_after_attached T h h' cs visited :
  attached excl T h h' -> (forall x, x ∈ T -> child_ok h x) ->
  stops_after h' cs visited -> stops_after h cs visited.
Proof.
  intros H HT (bad & rest & Hcs & Hvisited & Hbad).
  exists bad, rest. split; [done|]. split.
  - eapply Forall_impl; [exact Hvisited|]. intros l.
    by apply (attached_child_ok_inv excl T h h').
  - intros Hok. apply Hbad. by apply (attached_child_ok excl T h h').
Qed.

Lemma stopped_in_attached T h h' subnet visited :
  attached excl T h h' -> (forall x, x ∈ T -> child_ok h x) ->
  stopped_in h' subnet visited -> stopped_in h subnet visited.
Proof.
  intros H HT. unfold stopped_in. rewrite (H subnet).
  destruct (h !! subnet) as [s|]; [|done]. cbn [fmap option_fmap option_map].
  replace (children (if bool_decide (subnet ∈ T) then with_condition s excl else s))
    with (children s) by (by case_bool_decide).
  by apply (stops_after_attached T h h').
Qed.

(** When the inner loop throws, it has put the condition on the matching
    children it visited before the bad one, and has not taken it back. *)
Lemma for_of_children_outcome cons cs :
  forall h,
    match for_of cs (suppress_child excl) (mkWorld cons h) with
    | Return _ _ => True
    | Exit _ _ => False
    | Throw _ w' =>
        console w' = cons
        /\ exists visited,
             stops_after h cs visited
             /\ attached excl (List.filter (is_route h) visited) h (heap w')
    end.
Proof.
  induction cs as [|child rest IH]; intros h; [done|].
  simpl for_of. unfold bind at 1.
  destruct (child_ok_dec h child) as [Hc|Hbad].
  - destruct (suppress_child_run excl cons h child Hc) as (h1 & Hrun1 & Hat1).
    rewrite Hrun1. specialize (IH h1).
    destruct (for_of rest (suppress_child excl) (mkWorld cons h1))
      as [[] w'|code w'|e w']; [done|done|].
    destruct IH as (Hcons & visited & Hstop & Hat). split; [done|].
    assert (HT : forall x,
              x ∈ (if is_route h child then [child] else []) -> child_ok h x).
    { intros x Hx. destruct (is_route h child); [|by apply not_elem_of_nil in Hx].
      by apply list_elem_of_singleton in Hx as ->. }
    exists (child :: visited). split.
    + apply (stops_after_attached _ h h1 rest visited Hat1 HT) in Hstop
        as (bad & rest' & -> & Hvisited & Hbad).
      exists bad, rest'. split; [done|]. split; [by constructor | done].
    + rewrite (List.filter_ext _ (is_route h)) in Hat
        by (intros x; by apply (attached_is_route excl _ h h1 x Hat1)).
      simpl. destruct (is_route h child).
      * by apply (attached_app excl [child] _ h h1 (heap w')).
      * by apply (attached_app excl [] _ h h1 (heap w')).
  - destruct (suppress_child_bad excl cons h child Hbad) as [e ->].
    split; [done|]. exists []. split; [|apply attached_nil].
    exists child, rest. split; [done|]. split; [constructor | done].
Qed.

Lemma suppress_subnets_outcome cons subnets :
  forall h,
    match for_of subnets (suppress_subnet excl) (mkWorld cons h) with
    | Return _ _ => True
    | Exit _ _ => False
    | Throw _ w' =>
        console w' = cons
        /\ exists finished bad rest visited,
             subnets = finished ++ bad :: rest
             /\ Forall (resolves h) finished
             /\ ~ resolves h bad
             /\ stopped_in h bad visited
             /\ attached excl
                  (routes_of_all h finished ++ List.filter (is_route h) visited)
                  h (heap w')
    end.
Proof.
  induction subnets as [|subnet rest IH]; intros h; [done|].
  simpl for_of. unfold bind at 1.
  assert (Hsub : suppress_subnet excl subnet (mkWorld cons h)
                 = match h !! subnet with
                   | Some s => for_of (children s) (suppress_child excl)
                                 (mkWorld cons h)
                   | None => Throw (TypeError "Cannot read property of undefined")
                               (mkWorld cons h)
                   end).
  { unfold suppress_subnet, bind, deref. cbn [heap]. by destruct (h !! subnet). }
  rewrite Hsub. destruct (h !! subnet) as [s|] eqn:Hs.
  - pose proof (for_of_children_outcome cons (children s) h) as Hinner.
    destruct (for_of (children s) (suppress_child excl) (mkWorld cons h))
      as [[] w1|code w1|e w1] eqn:Hrun; [|done|].
    + apply for_of_children_Return in Hrun as Hres.
      destruct (for_of_children_run excl cons (children s) h Hres)
        as (h1 & Hrun1 & Hat1).
      rewrite Hrun1 in Hrun. injection Hrun as <-.
      pose proof (routes_ok h (children s) Hres) as HT.
      specialize (IH h1).
      destruct (for_of rest (suppress_subnet excl) (mkWorld cons h1))
        as [[] w'|code w'|e w']; [done|done|].
      destruct IH as (Hcons & finished & bad & rest' & visited & -> & Hfin
                      & Hbad & Hstop & Hat).
      split; [done|]. exists (subnet :: finished), bad, rest', visited.
      split; [done|]. split; [|split; [|split]].
      * constructor; [unfold resolves; by rewrite Hs|].
        eapply Forall_impl; [exact Hfin|]. intros q.
        by apply (attached_resolves_inv _ h h1 q Hat1).
      * intros Hok. apply Hbad. by apply (attached_resolves excl _ h h1 bad Hat1).
      * by apply (stopped_in_attached _ h h1 bad visited Hat1).
      * replace (routes_of_all h1 finished) with (routes_of_all h finished) in Hat.
        2:{ unfold routes_of_all. apply flat_map_ext. intros q. symmetry.
            apply (attached_routes_of excl _ h h1 q Hat1). }
        rewrite (List.filter_ext _ (is_route h)) in Hat
          by (intros x; by apply (attached_is_route excl _ h h1 x Hat1)).
        change (routes_of_all h (subnet :: finished))
          with (routes_of h subnet ++ routes_of_all h finished).
        rewrite <- app_assoc.
        apply (attached_app excl _ _ h h1 (heap w')); [|done].
        unfold routes_of. by rewrite Hs.
    + destruct Hinner as (Hcons & visited & Hstop & Hat). split; [done|].
      exists [], subnet, rest, visited. split; [done|]. split; [constructor|].
      split; [|split; [unfold stopped_in; by rewrite Hs | done]].
      unfold resolves. rewrite Hs. intros Hall.
      destruct Hstop as (bad & rest' & Hcs & _ & Hbad). apply Hbad.
      rewrite Forall_forall in Hall. apply Hall. rewrite Hcs.
      apply elem_of_app. right. by left.
  - split; [done|]. exists [], subnet, rest, []. split; [done|].
    split; [constructor|]. split; [unfold resolves; rewrite Hs; tauto|].
    split; [unfold stopped_in; by rewrite Hs | apply attached_nil].
Qed.

End LoopOutcome.

(** X8. How the loop can end. It ends normally exactly on the networks in
    which every reference holds a construct and every child named "CfnRoute"
    has options; it never exits the process; and when it throws, it has
    printed nothing and does not roll back: it stopped in the first subnet that
    does not resolve, and the heap it leaves is the heap it found with the
    condition on every matching child of the subnets before that one and on
    every matching child it visited in that one, and nothing else changed. *)
Theorem loop_outcomes (v : Vpc) (excl : loc) (w : World) :
  ((exists w', suppress_routes v excl w = Return tt w')
   <-> Forall (resolves (heap w)) (privateSubnets v))
  /\ (forall code w', suppress_routes v excl w <> Exit code w')
  /\ (forall e w',
        suppress_routes v excl w = Throw e w' ->
        console w' = console w
        /\ exists finished bad rest visited,
             privateSubnets v = finished ++ bad :: rest
             /\ Forall (resolves (heap w)) finished
             /\ ~ resolves (heap w) bad
             /\ stopped_in (heap w) bad visited
             /\ attached excl
                  (routes_of_all (heap w) finished
                   ++ List.filter (is_route (heap w)) visited)
                  (heap w) (heap w')).
Proof.
  split; [|split].
  - split.
    + intros [w' Hrun]. by apply suppress_routes_Return in Hrun as (? & _).
    + intros Hres.
      destruct (suppress_routes_resolves excl v w Hres) as (h' & Hrun & _).
      by eexists.
  - intros code w' Hrun. destruct w as [cons h].
    pose proof (suppress_subnets_outcome excl cons (privateSubnets v) h) as Hout.
    unfold suppress_routes in Hrun. by rewrite Hrun in Hout.
  - intros e w' Hrun. destruct w as [cons h].
    pose proof (suppress_subnets_outcome excl cons (privateSubnets v) h) as Hout.
    unfold suppress_routes in Hrun. by rewrite Hrun in Hout.
Qed.

Lemma loop_outcomes_witness :
  exists e w',
    suppress_routes optionless_vpc 9 optionless_world = Throw e w'
    /\ console w' = []
    /\ heap w' !! 0 = Some (with_condition (CfnRoute NoTarget) 9)
    /\ heap w' !! 2 = Some (CfnRoute NoTarget).
Proof.
  eexists _, _. split; [reflexivity|].
  split; [|split; reflexivity].
  eapply (proj2 (proj2 (loop_outcomes optionless_vpc 9 optionless_world))).
  reflexivity.
Defined.

(** X9. The order of the private subnets in the array does not matter, nor
    does listing one twice: when the loop ends normally on one array, it ends
    normally and leaves the same world on every array with the same
    members. *)
Theorem subnet_order_is_irrelevant (v1 v2 : Vpc) (excl : loc) (w w' : World) :
  (forall subnet,
     subnet ∈ privateSubnets v1 <-> subnet ∈ privateSubnets v2) ->
  suppress_routes v1 excl w = Return tt w' ->
  suppress_routes v2 excl w = Return tt w'.
Proof.
  intros Hsame Hrun.
  apply suppress_routes_Return in Hrun as (Hres & Hcons & Hat).
  destruct (suppress_routes_resolves excl v2 w) as (h2 & Hrun2 & Hat2).
  { rewrite Forall_forall in Hres. apply Forall_forall.
    intros q Hq. by apply Hres, Hsame. }
  rewrite Hrun2. f_equal. destruct w' as [cons' h']. cbn in *. f_equal; [done|].
  apply (attached_eq excl (routes_of_all (heap w) (privateSubnets v1)) (heap w));
    [|done].
  apply (attached_ext excl (routes_of_all (heap w) (privateSubnets v2))); [|done].
  intros l. rewrite !routes_of_all_elem.
  split; intros (q & s & Hq & Hrest); exists q, s; (split; [by apply Hsame|done]).
Qed.

Lemma subnet_order_is_irrelevant_witness :
  suppress_routes (mkVpc [3; 7] [15; 11; 15]) 16 world_before_loop
  = Return tt world_after_loop.
Proof.
  apply (subnet_order_is_irrelevant vpc_before_loop (mkVpc [3; 7] [15; 11; 15])
           16 world_before_loop world_after_loop).
  - intros subnet. cbn [privateSubnets vpc_before_loop].
    rewrite !elem_of_cons. pose proof (not_elem_of_nil subnet). tauto.
  - reflexivity.
Defined.

(** X10. The slot holds one condition, the last one assigned: running the
    loop with a first condition and then with a second leaves the world that
    running it with the second alone leaves. *)
Theorem last_condition_wins (v : Vpc) (excl1 excl2 : loc) (w w1 w2 : World) :
  suppress_routes v excl1 w = Return tt w1 ->
  suppress_routes v excl2 w1 = Return tt w2 ->
  suppress_routes v excl2 w = Return tt w2.
Proof.
  intros Hrun1 Hrun2.
  apply suppress_routes_Return in Hrun1 as (Hres & Hcons1 & Hat1).
  apply suppress_routes_Return in Hrun2 as (_ & Hcons2 & Hat2).
  destruct (suppress_routes_resolves excl2 v w Hres) as (h' & Hrun & Hat).
  rewrite Hrun. f_equal. destruct w2 as [cons2 h2]. cbn in *.
  f_equal; [congruence|].
  assert (Hroutes : routes_of_all (heap w1) (privateSubnets v)
                    = routes_of_all (heap w) (privateSubnets v)).
  { unfold routes_of_all. apply flat_map_ext. intros q.
    by apply (attached_routes_of excl1 _ _ _ q Hat1). }
  rewrite Hroutes in Hat2.
  apply list_eq. intros l. rewrite (Hat l), (Hat2 l), (Hat1 l).
  destruct (heap w !! l) as [c|]; [|done]. simpl. by case_bool_decide.
Qed.

Lemma last_condition_wins_witness :
  exists w2,
    suppress_routes vpc_before_loop 5 world_after_loop = Return tt w2
    /\ suppress_routes vpc_before_loop 5 world_before_loop = Return tt w2.
Proof.
  eexists. split; [reflexivity|].
  apply (last_condition_wins vpc_before_loop 16 5 world_before_loop
           world_after_loop); reflexivity.
Defined.

Section LoopCost.

Variable excl : nat.

Lemma loop_run_short out :
  forall inn w fuel,
    Forall (resolves (heap w)) out ->
    Forall (child_ok (heap w)) inn ->
    fuel < loop_fuel (heap w) out + length inn ->
    loop_run excl fuel (mkLoop out inn w) = None.
Proof.
  induction out as [|subnet rest IHo]; intros inn;
    induction inn as [|child cs IHi]; intros w fuel Hout Hinn Hfuel.
  - simpl in Hfuel. lia.
  - apply Forall_cons in Hinn as [Hc Hcs]. destruct w as [cons h].
    destruct (suppress_child_run excl cons h child Hc) as (h1 & Hrun1 & Hat1).
    assert (Hstep : loop_step excl (mkLoop [] (child :: cs) (mkWorld cons h))
                    = Next (mkLoop [] cs (mkWorld cons h1)))
      by (unfold loop_step; cbn [inner world outer]; by rewrite Hrun1).
    destruct fuel as [|k]; simpl; rewrite Hstep; [done|].
    apply IHi; [done| |simpl in *; lia].
    eapply Forall_impl; [exact Hcs|]. intros l Hl.
    by apply (attached_child_ok excl _ h h1 l Hat1).
  - apply Forall_cons in Hout as [Hs Hrest].
    unfold resolves in Hs. simpl in Hfuel. unfold children_of in Hfuel.
    destruct (heap w !! subnet) as [s|] eqn:Hsub; [|done].
    assert (Hstep : loop_step excl (mkLoop (subnet :: rest) [] w)
                    = Next (mkLoop rest (children s) w))
      by (unfold loop_step, deref; cbn [inner world outer]; by rewrite Hsub).
    destruct fuel as [|k]; simpl; rewrite Hstep; [done|].
    apply IHo; [done|done|lia].
  - apply Forall_cons in Hinn as [Hc Hcs]. destruct w as [cons h].
    destruct (suppress_child_run excl cons h child Hc) as (h1 & Hrun1 & Hat1).
    assert (Hstep : loop_step excl
                      (mkLoop (subnet :: rest) (child :: cs) (mkWorld cons h))
                    = Next (mkLoop (subnet :: rest) cs (mkWorld cons h1)))
      by (unfold loop_step; cbn [inner world outer]; by rewrite Hrun1).
    destruct fuel as [|k]; simpl; rewrite Hstep; [done|].
    cbn [heap] in *. apply IHi; cbn [heap].
    + eapply Forall_impl; [exact Hout|]. intros q.
      by apply (attached_resolves excl _ h h1 q Hat1).
    + eapply Forall_impl; [exact Hcs|]. intros l Hl.
      by apply (attached_child_ok excl _ h h1 l Hat1).
    + rewrite (loop_fuel_attached excl _ h h1 _ Hat1). simpl in *. lia.
Qed.

End LoopCost.

(** X11. The cost of the loop is exact. On a network whose references
    resolve, the step-by-step loop needs one step for every private subnet and
    one for every child of one, whatever their class names: with that many
    steps it ends normally, and with fewer it has not ended. *)
Theorem loop_cost_is_exact (v : Vpc) (excl : loc) (w : World) (fuel : nat) :
  Forall (resolves (heap w)) (privateSubnets v) ->
  (loop_fuel (heap w) (privateSubnets v) <= fuel ->
   exists h',
     loop_run excl fuel (mkLoop (privateSubnets v) [] w)
     = Some (Return tt (mkWorld (console w) h')))
  /\ (fuel < loop_fuel (heap w) (privateSubnets v) ->
      loop_run excl fuel (mkLoop (privateSubnets v) [] w) = None).
Proof.
  intros Hres. split.
  - intros Hfuel. rewrite loop_run_for_of by (simpl; lia).
    destruct (suppress_routes_resolves excl v w Hres) as (h' & Hrun & _).
    exists h'. f_equal. exact Hrun.
  - intros Hfuel. apply loop_run_short; [done|constructor|simpl; lia].
Qed.

Lemma loop_cost_is_exact_witness :
  (exists h',
     loop_run 16 8 (mkLoop [11; 15] [] world_before_loop)
     = Some (Return tt (mkWorld [] h')))
  /\ loop_run 16 7 (mkLoop [11; 15] [] world_before_loop) = None.
Proof.
  split.
  - apply (loop_cost_is_exact vpc_before_loop 16 world_before_loop 8).
    + repeat constructor; by eexists.
    + cbn. lia.
  - apply (loop_cost_is_exact vpc_before_loop 16 world_before_loop 7).
    + repeat constructor; by eexists.
    + cbn. lia.
Defined.
